(** * A retrying HTTP transport: [retry.Transport.RoundTrip]

    Shallow embedding of [retry/retry.go].  The file holds two documents,
    each with its own copy of the package: the first one logs through the
    helper [logf], the second one tests [t.Logger] in place, and they return
    different responses on [Abort].  Both are embedded, in the modules [V1]
    and [V2], over one shared data model (the type declarations of the two
    documents are the same text).

    The controller talks to four collaborators: the underlying transport,
    the retryer, the delayer and the logger.  They are arbitrary Go values,
    so they are modelled as state transformers over a world the controller
    does not look into, except for the heap of the responses, of which it
    reads and closes the bodies.  Every call the controller makes is
    recorded, in order, in a trace.  The loop has no bound, so it is run with
    fuel: one unit of fuel is one pass through the body of the [for], and a
    run that is still going when the fuel is spent ends as [OutOfFuel].

    What the model takes for granted:
    - a call of a collaborator returns (it neither panics nor blocks for
      ever);
    - the logger writes to a sink of its own, which no other collaborator
      reads;
    - the request is not [nil], and a response that is not [nil] has a body
      (the contract of [net/http]);
    - [uint] is 64 bits wide;
    - [io.Copy], [io.LimitReader] and [ioutil.Discard] do what their
      documentation says.
    The statement [panic("unreachable")] after the loop is not reached and
    has no counterpart here. *)

From stdpp Require Import base option list gmap strings.
From Stdlib Require Import ZArith Lia.

Local Open Scope Z_scope.

(** ** Data model *)

(** A Go [error]: an interface value, [None] is [nil]. *)
Definition error : Type := option string.

(** [time.Time], as an instant on the clock. *)
Definition Time : Type := Z.

(** Go's [uint], 64 bits wide on the 64-bit targets; [count++] wraps. *)
Definition uint_bits : Z := 64.
Definition uint_modulus : Z := 2 ^ uint_bits.
Definition uint (z : Z) : Z := z mod uint_modulus.
Definition uint_incr (count : Z) : Z := uint (count + 1).

(** Addresses of responses in the heap. *)
Definition loc : Type := nat.

(** An [io.ReadCloser] over a finite stream: the bytes still to be read,
    what [Read] answers once they are exhausted ([None] for [io.EOF], or an
    error), and whether [Close] has been called. *)
Record body : Type := Body_ {
  unread : list Byte.byte;
  fault : error;
  closed : bool
}.

Module http.

(** [http.Request]: the fields the controller reads ([URL] is printed only). *)
Record Request : Type := { Method : string; URL : string }.

(** The object behind a [*http.Response]. *)
Record ResponseObj : Type := { StatusCode : Z; Body : body }.

(** [*http.Response], when it is not [nil]. *)
Definition Response : Type := loc.

End http.

Module Attempt.

(** [type Attempt struct]: [Request] and [Response] are the embedded
    pointers; a [nil] response is [None]. *)
Record t : Type := {
  Start : Time;
  Count : Z;
  Err : error;
  Request : http.Request;
  Response : option http.Response
}.

End Attempt.

(** [type Decision int] and its three constants. *)
Definition Decision : Type := Z.
Definition Ignore : Decision := 0.
Definition Retry : Decision := 1.
Definition Abort : Decision := 2.

(** The world of the collaborators: their own state, and the heap of the
    responses the transport has handed out. *)
Record World (S : Type) : Type := {
  ext : S;
  heap : gmap loc http.ResponseObj
}.
Arguments ext {S} _.
Arguments heap {S} _.

(** [type Delayer func(Attempt)]. *)
Definition Delayer (S : Type) : Type := Attempt.t -> World S -> World S.

(** [type Retryer func(Attempt) (Decision, error)]. *)
Definition Retryer (S : Type) : Type :=
  Attempt.t -> World S -> (Decision * error) * World S.

(** [http.RoundTripper], by its one method. *)
Definition RoundTripper (S : Type) : Type :=
  http.Request -> World S -> (option http.Response * error) * World S.

(** The operands of a [Printf]. *)
Inductive arg : Type :=
| ArgString (s : string)
| ArgUint (n : Z)
| ArgError (e : error).

(** [type Logger interface], by its one method; it writes to a sink of its
    own. *)
Definition Logger (L : Type) : Type := string -> list arg -> L -> L.

Module Transport.

(** [type Transport struct]; a [nil] field is [None]. *)
Record t (S L : Type) : Type := {
  Delay : option (Delayer S);
  Retry : option (Retryer S);
  Next : option (RoundTripper S);
  Logger : option (Logger L)
}.
Arguments Delay {S L} _.
Arguments Retry {S L} _.
Arguments Next {S L} _.
Arguments Logger {S L} _.

End Transport.

(** ** Traces *)

(** The calls the controller makes, with what they returned. *)
Inductive Event : Type :=
| RoundTripCall (req : http.Request) (resp : option http.Response) (err : error)
| RetryerCall (a : Attempt.t) (d : Decision) (e : error)
| CopyCall (r : http.Response) (limit : Z) (n : Z) (e : error)
| CloseCall (r : http.Response)
| DelayCall (a : Attempt.t).

(** ** The monad of the controller: state, trace and panics *)

Record State (S L : Type) : Type := {
  world : World S;
  sink : L
}.
Arguments world {S L} _.
Arguments sink {S L} _.

(** A computation answers [None] when it panics. *)
Definition M (S L A : Type) : Type :=
  State S L -> option A * State S L * list Event.

Definition ret {S L A} (a : A) : M S L A := fun s => (Some a, s, []).

Definition bind {S L A B} (m : M S L A) (f : A -> M S L B) : M S L B :=
  fun s =>
    match m s with
    | (Some a, s1, e1) =>
        match f a s1 with
        | (b, s2, e2) => (b, s2, e1 ++ e2)
        end
    | (None, s1, e1) => (None, s1, e1)
    end.

Declare Scope ctl_scope.
Delimit Scope ctl_scope with ctl.
Notation "'let*' p ':=' m 'in' k" := (bind m (fun x => match x with p => k end))
  (at level 10, p pattern, m at level 100, k at level 200) : ctl_scope.
Notation "m ;; k" := (bind m (fun _ => k))
  (at level 100, right associativity) : ctl_scope.

(** [if cond { m }]. *)
Definition when {S L} (cond : bool) (m : M S L unit) : M S L unit :=
  if cond then m else ret tt.

(** ** The calls *)

Section Calls.
Context {S L : Type}.

(** [lg.Printf(format, v...)]. *)
Definition Printf (lg : Logger L) (format : string) (v : list arg) : M S L unit :=
  fun s => (Some tt, {| world := world s; sink := lg format v (sink s) |}, []).

(** [next.RoundTrip(req)]; the method of a [nil] interface panics. *)
Definition Next_RoundTrip (next : option (RoundTripper S)) (req : http.Request)
  : M S L (option http.Response * error) :=
  fun s =>
    match next with
    | None => (None, s, [])
    | Some rt =>
        match rt req (world s) with
        | ((resp, err), w) =>
            (Some (resp, err), {| world := w; sink := sink s |},
             [RoundTripCall req resp err])
        end
    end.

(** [retryer(attempt)]; the call of a [nil] function panics. *)
Definition call_Retryer (retryer : option (Retryer S)) (attempt : Attempt.t)
  : M S L (Decision * error) :=
  fun s =>
    match retryer with
    | None => (None, s, [])
    | Some f =>
        match f attempt (world s) with
        | ((d, e), w) =>
            (Some (d, e), {| world := w; sink := sink s |}, [RetryerCall attempt d e])
        end
    end.

(** [delay(attempt)]. *)
Definition call_Delayer (delay : Delayer S) (attempt : Attempt.t) : M S L unit :=
  fun s =>
    (Some tt, {| world := delay attempt (world s); sink := sink s |},
     [DelayCall attempt]).

(** What [io.Copy(ioutil.Discard, io.LimitReader(b, limit))] does to the
    stream [b]: it reads until [limit] bytes are consumed or the stream ends,
    and reports the error that ended the stream, if one did.  A closed body
    refuses to be read. *)
Definition copy_limited (b : body) (limit : Z) : (Z * error) * body :=
  if closed b then ((0, Some "http: read on closed response body"%string), b)
  else
    let n := Z.min (Z.max 0 limit) (Z.of_nat (length (unread b))) in
    ((n, if Z.of_nat (length (unread b)) <? limit then fault b else None),
     {| unread := drop (Z.to_nat n) (unread b); fault := fault b; closed := false |}).

(** [io.Copy(ioutil.Discard, io.LimitReader(resp.Body, limit))].  A pointer
    the transport returned is in the heap: Go has no dangling pointers. *)
Definition io_Copy_Discard_LimitReader (resp : http.Response) (limit : Z)
  : M S L (Z * error) :=
  fun s =>
    match heap (world s) !! resp with
    | Some o =>
        match copy_limited (http.Body o) limit with
        | ((n, e), b) =>
            (Some (n, e),
             {| world := {| ext := ext (world s);
                            heap := <[resp := {| http.StatusCode := http.StatusCode o;
                                                 http.Body := b |}]> (heap (world s)) |};
                sink := sink s |},
             [CopyCall resp limit n e])
        end
    | None => (Some (0, None), s, [CopyCall resp limit 0 None])
    end.

(** [resp.Body.Close()]. *)
Definition Body_Close (resp : http.Response) : M S L unit :=
  fun s =>
    match heap (world s) !! resp with
    | Some o =>
        (Some tt,
         {| world := {| ext := ext (world s);
                        heap := <[resp := {| http.StatusCode := http.StatusCode o;
                                             http.Body := {| unread := unread (http.Body o);
                                                             fault := fault (http.Body o);
                                                             closed := true |} |}]>
                                  (heap (world s)) |};
            sink := sink s |},
         [CloseCall resp])
    | None => (Some tt, s, [CloseCall resp])
    end.

End Calls.

(** [bodyReadLimit = int64(4096)]. *)
Definition bodyReadLimit : Z := 4096.

(** How a pass through the body of the [for] ends. *)
Inductive Flow : Type :=
| Continue
| Return (resp : option http.Response) (err : error).

(** How a run ends: [RoundTrip] returned, it panicked, or the fuel ran out
    while the loop was still going. *)
Inductive Result : Type :=
| Returned (resp : option http.Response) (err : error)
| Panicked
| OutOfFuel.

Record Run (S L : Type) : Type := {
  result : Result;
  final : State S L;
  trace : list Event
}.
Arguments result {S L} _.
Arguments final {S L} _.
Arguments trace {S L} _.

(** [for count := ...; ; count++ { body }], for [fuel] passes at most. *)
Fixpoint for_loop {S L} (body : Z -> M S L Flow) (fuel : nat) (count : Z)
  (s : State S L) : Run S L :=
  match fuel with
  | O => {| result := OutOfFuel; final := s; trace := [] |}
  | Datatypes.S fuel' =>
      match body count s with
      | (None, s1, e1) => {| result := Panicked; final := s1; trace := e1 |}
      | (Some (Return resp err), s1, e1) =>
          {| result := Returned resp err; final := s1; trace := e1 |}
      | (Some Continue, s1, e1) =>
          let r := for_loop body fuel' (uint_incr count) s1 in
          {| result := result r; final := final r; trace := e1 ++ trace r |}
      end
  end.

(** ** The first document *)

Module V1.
Section RoundTrip.
Context {S L : Type}.

(** [now = time.Now]: the clock, read off the world. *)
Variable now : World S -> Time.

(** [DefaultRetryer] is declared in another file of the package, as a
    [Retryer] that is always there; it is a parameter here. *)
Variable DefaultRetryer : Retryer S.

(** The receiver. *)
Variable t : Transport.t S L.

Local Open Scope ctl_scope.

(** [func (t Transport) logf(format string, v ...interface{})]. *)
Definition logf (format : string) (v : list arg) : M S L unit :=
  match Transport.Logger t with
  | Some lg => Printf lg format v
  | None => ret tt
  end.

(** The body of the [for] of [RoundTrip]. *)
Definition iteration (req : http.Request) (retryer : option (Retryer S)) (start : Time)
  (count : Z) : M S L Flow :=
  when (1 <? count)
    (logf "[DEBUG] retrying %s %v, attempt: %d"
       [ArgString (http.Method req); ArgString (http.URL req); ArgUint count]) ;;
  let* (resp, err) := Next_RoundTrip (Transport.Next t) req in
  when (bool_decide (err <> None))
    (logf "[INFO] %s %v, request error: %s"
       [ArgString (http.Method req); ArgString (http.URL req); ArgError err]) ;;
  let attempt := {| Attempt.Start := start;
                    Attempt.Count := count;
                    Attempt.Err := err;
                    Attempt.Request := req;
                    Attempt.Response := resp |} in
  let* (retry, retryErr) := call_Retryer retryer attempt in
  when (bool_decide (retryErr <> None))
    (logf "[INFO] %s %v, retryer error: %s"
       [ArgString (http.Method req); ArgString (http.URL req); ArgError retryErr]) ;;
  if retry =? Ignore then ret (Return resp err)
  else if retry =? Abort then
    logf "[ERROR] aborting request %s %v, error: %s"
      [ArgString (http.Method req); ArgString (http.URL req); ArgError retryErr] ;;
    ret (Return resp retryErr)
  else
    match resp with
    | Some r =>
        let* (_, err) := io_Copy_Discard_LimitReader r bodyReadLimit in
        when (bool_decide (err <> None))
          (logf "[ERROR] error reading response body: %s"
             [ArgString (http.Method req); ArgString (http.URL req);
              ArgError retryErr]) ;;
        Body_Close r
    | None => ret tt
    end ;;
    match Transport.Delay t with
    | Some delay =>
        logf "[DEBUG] delaying before retry %s %v"
          [ArgString (http.Method req); ArgString (http.URL req)] ;;
        call_Delayer delay attempt
    | None => ret tt
    end ;;
    ret Continue.

(** [func (t Transport) RoundTrip], with the fuel of the loop. *)
Definition RoundTrip (fuel : nat) (req : http.Request) (s : State S L) : Run S L :=
  let retryer := Transport.Retry t in
  let start := now (world s) in
  let retryer := match retryer with
                 | None => Some DefaultRetryer
                 | Some _ => retryer
                 end in
  for_loop (iteration req retryer start) fuel 1 s.

End RoundTrip.
End V1.

(** ** The second document *)

Module V2.
Section RoundTrip.
Context {S L : Type}.

(** The clock, the default retryer and the receiver, as in [V1]. *)
Variable now : World S -> Time.
Variable DefaultRetryer : Retryer S.
Variable t : Transport.t S L.

Local Open Scope ctl_scope.

(** The body of the [for] of [RoundTrip]. *)
Definition iteration (req : http.Request) (retryer : option (Retryer S)) (start : Time)
  (count : Z) : M S L Flow :=
  when (1 <? count)
    (match Transport.Logger t with
     | Some lg =>
         Printf lg "[DEBUG] retrying %s %s, attempt: %d"
           [ArgString (http.Method req); ArgString (http.URL req); ArgUint count]
     | None => ret tt
     end) ;;
  let* (resp, err) := Next_RoundTrip (Transport.Next t) req in
  when (bool_decide (err <> None))
    (match Transport.Logger t with
     | Some lg =>
         Printf lg "[INFO] %s %s, request error: %s"
           [ArgString (http.Method req); ArgString (http.URL req); ArgError err]
     | None => ret tt
     end) ;;
  let attempt := {| Attempt.Start := start;
                    Attempt.Count := count;
                    Attempt.Err := err;
                    Attempt.Request := req;
                    Attempt.Response := resp |} in
  let* (retry, retryErr) := call_Retryer retryer attempt in
  when (bool_decide (retryErr <> None))
    (match Transport.Logger t with
     | Some lg =>
         Printf lg "[INFO] %s %s, retryer error: %s"
           [ArgString (http.Method req); ArgString (http.URL req); ArgError retryErr]
     | None => ret tt
     end) ;;
  if retry =? Ignore then ret (Return resp err)
  else if retry =? Abort then
    match Transport.Logger t with
    | Some lg =>
        Printf lg "[ERROR] aborting request %s %s, error: %s"
          [ArgString (http.Method req); ArgString (http.URL req); ArgError retryErr]
    | None => ret tt
    end ;;
    ret (Return None retryErr)
  else
    match resp with
    | Some r =>
        let* (_, err) := io_Copy_Discard_LimitReader r bodyReadLimit in
        when (bool_decide (err <> None))
          (match Transport.Logger t with
           | Some lg =>
               Printf lg "[ERROR] error reading response body: %s"
                 [ArgString (http.Method req); ArgString (http.URL req);
                  ArgError retryErr]
           | None => ret tt
           end) ;;
        Body_Close r
    | None => ret tt
    end ;;
    match Transport.Delay t with
    | Some delay =>
        match Transport.Logger t with
        | Some lg =>
            Printf lg "[DEBUG] delaying before retry %s %s"
              [ArgString (http.Method req); ArgString (http.URL req)]
        | None => ret tt
        end ;;
        call_Delayer delay attempt
    | None => ret tt
    end ;;
    ret Continue.

(** [func (t Transport) RoundTrip], with the fuel of the loop. *)
Definition RoundTrip (fuel : nat) (req : http.Request) (s : State S L) : Run S L :=
  let retryer := Transport.Retry t in
  let start := now (world s) in
  let retryer := match retryer with
                 | None => Some DefaultRetryer
                 | Some _ => retryer
                 end in
  for_loop (iteration req retryer start) fuel 1 s.

End RoundTrip.
End V2.

(** ** Reading traces *)

(** The calls of the retryer, in order: the attempt it was given, the
    decision and the error it answered. *)
Definition retryer_calls (tr : list Event) : list (Attempt.t * Decision * error) :=
  omap (fun ev => match ev with
                  | RetryerCall a d e => Some (a, d, e)
                  | _ => None
                  end) tr.

(** The calls of the underlying transport, in order, with their results. *)
Definition transport_calls (tr : list Event)
  : list (http.Request * option http.Response * error) :=
  omap (fun ev => match ev with
                  | RoundTripCall req resp err => Some (req, resp, err)
                  | _ => None
                  end) tr.

(** The attempts handed to the delayer, in order. *)
Definition delayer_calls (tr : list Event) : list Attempt.t :=
  omap (fun ev => match ev with
                  | DelayCall a => Some a
                  | _ => None
                  end) tr.

(** A decision that ends the loop. *)
Definition terminal (d : Decision) : bool := (d =? Ignore) || (d =? Abort).

(** The attempts that were answered by a decision that keeps the loop going. *)
Definition retried_attempts (tr : list Event) : list Attempt.t :=
  omap (fun c => match c with
                 | (a, d, _) => if terminal d then None else Some a
                 end) (retryer_calls tr).

Definition is_RetryerCall (ev : Event) : bool :=
  match ev with RetryerCall _ _ _ => true | _ => false end.

(** ** The controller without its logger

    Both documents make the same calls to the transport, the retryer, the
    body and the delayer, around different calls to the logger; on [Abort]
    the first returns the response of the attempt and the second returns
    [nil].  [Core.pass] is the body of the loop with the logger taken out and
    the response returned on [Abort] left open; the two documents are shown to
    refine it, and the properties of the loop are proved on it once. *)

Module Core.
Section Core.
Context {S : Type}.
Variable next : option (RoundTripper S).
Variable retryer : Retryer S.
Variable delay : option (Delayer S).
Variable req : http.Request.
Variable start : Time.
Variable on_abort : option http.Response -> option http.Response.

Local Open Scope ctl_scope.

Definition drain (resp : option http.Response) : M S unit unit :=
  match resp with
  | Some r =>
      let* _ := io_Copy_Discard_LimitReader r bodyReadLimit in
      Body_Close r
  | None => ret tt
  end.

Definition pause (attempt : Attempt.t) : M S unit unit :=
  match delay with
  | Some f => call_Delayer f attempt
  | None => ret tt
  end.

Definition pass (count : Z) : M S unit Flow :=
  let* (resp, err) := Next_RoundTrip next req in
  let attempt := {| Attempt.Start := start;
                    Attempt.Count := count;
                    Attempt.Err := err;
                    Attempt.Request := req;
                    Attempt.Response := resp |} in
  let* (d, e) := call_Retryer (Some retryer) attempt in
  if d =? Ignore then ret (Return resp err)
  else if d =? Abort then ret (Return (on_abort resp) e)
  else drain resp ;; pause attempt ;; ret Continue.

Definition loop (fuel : nat) (count : Z) (s : State S unit) : Run S unit :=
  for_loop pass fuel count s.

End Core.
End Core.

(** Forgetting the sink of the logger. *)
Definition unlog_state {S L} (s : State S L) : State S unit :=
  {| world := world s; sink := tt |}.

Definition unlog_out {S L A} (x : option A * State S L * list Event)
  : option A * State S unit * list Event :=
  (x.1.1, unlog_state x.1.2, x.2).

Definition unlog {S L} (r : Run S L) : Run S unit :=
  {| result := result r; final := unlog_state (final r); trace := trace r |}.

(** The response each document returns on [Abort]. *)
Definition abort_V1 (resp : option http.Response) : option http.Response := resp.
Definition abort_V2 (resp : option http.Response) : option http.Response := None.

(** ** Notions for the proofs *)

(** [sim m m']: [m] does what [m'] does, apart from what it logs. *)
Definition sim {S L A} (m : M S L A) (m' : M S unit A) : Prop :=
  forall s, unlog_out (m s) = m' (unlog_state s).

(** The retryer the loop runs with: [t.Retry], or the default one. *)
Definition retryer_of {S L} (DefaultRetryer : Retryer S) (t : Transport.t S L)
  : Retryer S :=
  match Transport.Retry t with
  | Some f => f
  | None => DefaultRetryer
  end.

(** What [RoundTrip] returns when the retryer answers the terminal decision
    [d] with the error [e] for the attempt [a]. *)
Definition outcome (on_abort : option http.Response -> option http.Response)
  (a : Attempt.t) (d : Decision) (e : error) : Result :=
  if d =? Ignore then Returned (Attempt.Response a) (Attempt.Err a)
  else Returned (on_abort (Attempt.Response a)) e.

(** The calls that dispose of the response of a rejected attempt. *)
Definition drained (resp : option http.Response) (evs : list Event) : Prop :=
  match resp with
  | Some r =>
      exists n e, evs = [CopyCall r bodyReadLimit n e; CloseCall r]
                  /\ 0 <= n <= bodyReadLimit
  | None => evs = []
  end.

(** The call of the delayer, when there is one. *)
Definition paused {S} (delay : option (Delayer S)) (a : Attempt.t) : list Event :=
  match delay with
  | Some _ => [DelayCall a]
  | None => []
  end.

(** The calls of a pass after a decision that keeps the loop going. *)
Definition rejected {S} (delay : option (Delayer S)) (a : Attempt.t)
  (evs : list Event) : Prop :=
  exists dr, drained (Attempt.Response a) dr /\ evs = dr ++ paused delay a.

(** The attempt record of the pass numbered [count]. *)
Definition attempt_of (req : http.Request) (start : Time) (count : Z)
  (a : Attempt.t) : Prop :=
  Attempt.Start a = start /\ Attempt.Count a = count /\ Attempt.Request a = req.

(** What is next in a trace: nothing yet, or a call of the transport. *)
Definition transport_next (req : http.Request) (tr : list Event) : Prop :=
  tr = [] \/ exists resp err tr', tr = RoundTripCall req resp err :: tr'.

(** The traces the loop can leave, as a grammar: a run out of fuel, a
    panic on a [nil] transport, a pass that returns, or a pass that goes on
    followed by the run from the next count. *)
Inductive run_shape {S} (next : option (RoundTripper S)) (delay : option (Delayer S))
  (req : http.Request) (start : Time)
  (on_abort : option http.Response -> option http.Response)
  : nat -> Z -> list Event -> Result -> Prop :=
| run_fuel count : run_shape next delay req start on_abort 0 count [] OutOfFuel
| run_panic fuel count :
    next = None ->
    run_shape next delay req start on_abort (Datatypes.S fuel) count [] Panicked
| run_return fuel count a d e :
    attempt_of req start count a -> terminal d = true ->
    run_shape next delay req start on_abort (Datatypes.S fuel) count
      [RoundTripCall req (Attempt.Response a) (Attempt.Err a); RetryerCall a d e]
      (outcome on_abort a d e)
| run_continue fuel count a d e tl tr res :
    attempt_of req start count a -> terminal d = false -> rejected delay a tl ->
    run_shape next delay req start on_abort fuel (uint_incr count) tr res ->
    run_shape next delay req start on_abort (Datatypes.S fuel) count
      (RoundTripCall req (Attempt.Response a) (Attempt.Err a)
       :: RetryerCall a d e :: tl ++ tr) res.

(** ** The two documents together *)

Inductive Document : Type := First | Second.

Definition RoundTrip {S L} (doc : Document) (now : World S -> Time)
  (DefaultRetryer : Retryer S) (t : Transport.t S L) (fuel : nat)
  (req : http.Request) (s : State S L) : Run S L :=
  match doc with
  | First => V1.RoundTrip now DefaultRetryer t fuel req s
  | Second => V2.RoundTrip now DefaultRetryer t fuel req s
  end.

Definition abort_of (doc : Document) : option http.Response -> option http.Response :=
  match doc with
  | First => abort_V1
  | Second => abort_V2
  end.

(** The call of the retryer on the attempt numbered [N] (from 1): the last
    call of the run that is given the fuel of [N] passes, when that run gets
    as far as a call of the retryer on its last pass. *)
Definition retryer_call {S L} (doc : Document) (now : World S -> Time)
  (DefaultRetryer : Retryer S) (t : Transport.t S L) (req : http.Request)
  (s : State S L) (N : nat) : option (Attempt.t * Decision * error) :=
  retryer_calls (trace (RoundTrip doc now DefaultRetryer t N req s)) !! pred N.

(** The decision of the retryer on the attempt numbered [N]. *)
Definition decision_on {S L} (doc : Document) (now : World S -> Time)
  (DefaultRetryer : Retryer S) (t : Transport.t S L) (req : http.Request)
  (s : State S L) (N : nat) : option Decision :=
  (fun c => c.1.2) <$> retryer_call doc now DefaultRetryer t req s N.

(** ** Collaborators for the examples *)

Module Examples.

Definition req : http.Request :=
  {| http.Method := "GET"; http.URL := "http://example.org/" |}.

(** A clock that reads the collaborators' counter. *)
Definition clock (w : World nat) : Time := 1000 + Z.of_nat (ext w).

(** A transport that fails on every call. *)
Definition failing : RoundTripper nat :=
  fun _ w => ((None, Some "connection reset"%string),
              {| ext := Datatypes.S (ext w); heap := heap w |}).

(** A transport that answers every call with a fresh response of the given
    status, with [size] bytes of body. *)
Definition serving (status : Z) (size : nat) : RoundTripper nat :=
  fun _ w =>
    let r := Datatypes.S (ext w) in
    ((Some r, None),
     {| ext := r;
        heap := <[r := {| http.StatusCode := status;
                          http.Body := {| unread := replicate size Byte.x00;
                                          fault := None;
                                          closed := false |} |}]> (heap w) |}).

(** A retryer that answers [Retry] below the attempt numbered [n], and
    [last] from there on. *)
Definition upto (n : Z) (last : Decision * error) : Retryer nat :=
  fun a w => (if Attempt.Count a <? n then (Retry, None) else last, w).

(** A delayer that only counts. *)
Definition waiting : Delayer nat :=
  fun _ w => {| ext := (100 + ext w)%nat; heap := heap w |}.

(** A logger that keeps what it is given. *)
Definition recording : Logger (list (string * list arg)) :=
  fun format v l => l ++ [(format, v)].

Definition start : State nat (list (string * list arg)) :=
  {| world := {| ext := 0%nat; heap := ∅ |}; sink := [] |}.

(** The transport always fails; the retryer gives up on the third attempt. *)
Definition giving_up : Transport.t nat (list (string * list arg)) :=
  {| Transport.Delay := Some waiting;
     Transport.Retry := Some (upto 3 (Abort, Some "max attempts exceeded"%string));
     Transport.Next := Some failing;
     Transport.Logger := Some recording |}.

(** The transport answers; the retryer accepts the second answer. *)
Definition second_try : Transport.t nat (list (string * list arg)) :=
  {| Transport.Delay := Some waiting;
     Transport.Retry := Some (upto 2 (Ignore, Some "ignored"%string));
     Transport.Next := Some (serving 503 5000);
     Transport.Logger := Some recording |}.

(** The transport answers; the retryer accepts the first answer, and
    returns an error with its decision. *)
Definition first_try : Transport.t nat (list (string * list arg)) :=
  {| Transport.Delay := None;
     Transport.Retry := Some (upto 1 (Ignore, Some "ignored"%string));
     Transport.Next := Some (serving 200 10);
     Transport.Logger := None |}.

(** The transport answers; the retryer aborts on the first answer. *)
Definition aborting : Transport.t nat (list (string * list arg)) :=
  {| Transport.Delay := None;
     Transport.Retry := Some (upto 1 (Abort, Some "server error"%string));
     Transport.Next := Some (serving 503 5000);
     Transport.Logger := None |}.

(** The transport always fails; the retryer stops when the count it is given
    is 0, which is what the count becomes when it wraps. *)
Definition until_zero : Retryer unit :=
  fun a w => (if Attempt.Count a =? 0 then (Ignore, None) else (Retry, None), w).

Definition refused : RoundTripper unit :=
  fun _ w => ((None, Some "connection refused"%string), w).

Definition wrapping : Transport.t unit unit :=
  {| Transport.Delay := None;
     Transport.Retry := Some until_zero;
     Transport.Next := Some refused;
     Transport.Logger := None |}.

Definition nowhere : State unit unit :=
  {| world := {| ext := tt; heap := ∅ |}; sink := tt |}.

(** The transport always fails and the retryer never gives up. *)
Definition always_retry : Retryer unit := fun _ w => ((Retry, None), w).

Definition stubborn : Transport.t unit unit :=
  {| Transport.Delay := None;
     Transport.Retry := Some always_retry;
     Transport.Next := Some refused;
     Transport.Logger := None |}.

(** The transport answers; the retryer answers the first attempt with an
    [int] that is none of the three decisions, and accepts the second. *)
Definition undecided : Transport.t nat (list (string * list arg)) :=
  {| Transport.Delay := Some waiting;
     Transport.Retry :=
       Some (fun a w => (if Attempt.Count a <? 2 then (7, None) else (Ignore, None), w));
     Transport.Next := Some (serving 503 100);
     Transport.Logger := None |}.

(** No retryer in the field: the default one is to decide. *)
Definition defaulted : Transport.t nat (list (string * list arg)) :=
  {| Transport.Delay := Some waiting;
     Transport.Retry := None;
     Transport.Next := Some failing;
     Transport.Logger := Some recording |}.

(** No transport at all. *)
Definition unplugged : Transport.t nat (list (string * list arg)) :=
  {| Transport.Delay := Some waiting;
     Transport.Retry := Some (upto 3 (Abort, Some "max attempts exceeded"%string));
     Transport.Next := None;
     Transport.Logger := Some recording |}.

End Examples.

(** The attempts of the run of [Examples.wrapping]. *)
Definition refused_attempt (count : Z) : Attempt.t :=
  {| Attempt.Start := 0;
     Attempt.Count := count;
     Attempt.Err := Some "connection refused"%string;
     Attempt.Request := Examples.req;
     Attempt.Response := None |}.

(** ** More readings of traces and states *)

(** The responses whose body the controller closes, in order. *)
Definition close_calls (tr : list Event) : list http.Response :=
  omap (fun ev => match ev with
                  | CloseCall r => Some r
                  | _ => None
                  end) tr.

(** The responses whose body the controller reads, in order, with the limit
    it sets on the read. *)
Definition copy_calls (tr : list Event) : list (http.Response * Z) :=
  omap (fun ev => match ev with
                  | CopyCall r limit _ _ => Some (r, limit)
                  | _ => None
                  end) tr.

(** The responses of the rejected attempts, in order. *)
Definition rejected_responses (tr : list Event) : list http.Response :=
  omap Attempt.Response (retried_attempts tr).

(** A call of the retryer that [retryer] answers, in some world. *)
Definition answered_by {S} (retryer : Retryer S)
  (c : Attempt.t * Decision * error) : Prop :=
  exists w w', retryer c.1.1 w = (c.1.2, c.2, w').

(** The line each document logs when it aborts. *)
Definition abort_format (doc : Document) : string :=
  match doc with
  | First => "[ERROR] aborting request %s %v, error: %s"
  | Second => "[ERROR] aborting request %s %s, error: %s"
  end.

(** * Proofs *)

(** ** Refinement of the two documents *)

Section Sim.
Context {S L : Type}.

Lemma sim_ret {A} (a : A) : sim (L := L) (S := S) (ret a) (ret a).
Proof. done. Qed.

Lemma sim_bind {A B} (m : M S L A) m' (f : A -> M S L B) f' :
  sim m m' -> (forall a, sim (f a) (f' a)) -> sim (bind m f) (bind m' f').
Proof.
  intros Hm Hf s. unfold bind. specialize (Hm s). unfold unlog_out in Hm.
  destruct (m s) as [[[a|] s1] e1]; simpl in Hm; rewrite <- Hm; [|done].
  specialize (Hf a s1). unfold unlog_out in Hf.
  destruct (f a s1) as [[b s2] e2]; simpl in Hf. rewrite <- Hf. done.
Qed.

Lemma sim_skip {B} (m : M S L unit) (k : M S L B) k' :
  sim m (ret tt) -> sim k k' -> sim (bind m (fun _ => k)) k'.
Proof.
  intros Hm Hk s. unfold bind. pose proof (Hm s) as H1.
  unfold unlog_out, ret in H1.
  destruct (m s) as [[[a|] s1] e1]; cbn [fst snd] in H1; [|discriminate].
  assert (E1 : unlog_state s1 = unlog_state s) by congruence.
  assert (E2 : e1 = []) by congruence.
  subst e1. rewrite <- E1, <- Hk.
  destruct (k s1) as [[b s2] e2]. done.
Qed.

Lemma sim_Printf (lg : Logger L) format v : sim (S := S) (Printf lg format v) (ret tt).
Proof. done. Qed.

Lemma sim_logf (t : Transport.t S L) format v : sim (V1.logf t format v) (ret tt).
Proof. unfold V1.logf. destruct (Transport.Logger t); done. Qed.

Lemma sim_when (c : bool) (m : M S L unit) : sim m (ret tt) -> sim (when c m) (ret tt).
Proof. destruct c; done. Qed.

Lemma sim_Next_RoundTrip (next : option (RoundTripper S)) req :
  sim (L := L) (Next_RoundTrip next req) (Next_RoundTrip next req).
Proof.
  intros s. unfold Next_RoundTrip, unlog_out. destruct next as [rt|]; [|done].
  simpl. destruct (rt req (world s)) as [[resp err] w]. done.
Qed.

Lemma sim_call_Retryer (retryer : option (Retryer S)) a :
  sim (L := L) (call_Retryer retryer a) (call_Retryer retryer a).
Proof.
  intros s. unfold call_Retryer, unlog_out. destruct retryer as [f|]; [|done].
  simpl. destruct (f a (world s)) as [[d e] w]. done.
Qed.

Lemma sim_call_Delayer (delay : Delayer S) a :
  sim (L := L) (call_Delayer delay a) (call_Delayer delay a).
Proof. done. Qed.

Lemma sim_io_Copy r limit :
  sim (S := S) (L := L) (io_Copy_Discard_LimitReader r limit)
    (io_Copy_Discard_LimitReader r limit).
Proof.
  intros s. unfold io_Copy_Discard_LimitReader, unlog_out. simpl.
  destruct (heap (world s) !! r) as [o|]; [|done].
  destruct (copy_limited (http.Body o) limit) as [[n e] b]. done.
Qed.

Lemma sim_Body_Close r : sim (S := S) (L := L) (Body_Close r) (Body_Close r).
Proof.
  intros s. unfold Body_Close, unlog_out. simpl.
  destruct (heap (world s) !! r) as [o|]; done.
Qed.

End Sim.

Ltac sim_step :=
  first
    [ apply sim_ret
    | apply sim_Printf
    | apply sim_logf
    | apply sim_when
    | apply sim_Next_RoundTrip
    | apply sim_call_Retryer
    | apply sim_call_Delayer
    | apply sim_io_Copy
    | apply sim_Body_Close
    | apply sim_skip
    | apply sim_bind
    | intros [? ?]
    | intros ? ].

Lemma for_loop_unlog {S L} (body : Z -> M S L Flow) (body' : Z -> M S unit Flow) :
  (forall c s, unlog_out (body c s) = body' c (unlog_state s)) ->
  forall fuel c s, unlog (for_loop body fuel c s) = for_loop body' fuel c (unlog_state s).
Proof.
  intros Hb fuel. induction fuel as [|fuel IH]; intros c s; [done|].
  simpl. specialize (Hb c s). unfold unlog_out in Hb.
  destruct (body c s) as [[[fl|] s1] e1]; simpl in Hb; rewrite <- Hb.
  - destruct fl; [|done]. rewrite <- IH. done.
  - done.
Qed.

Lemma V1_iteration_sim {S L} (t : Transport.t S L) req f start c :
  sim (V1.iteration t req (Some f) start c)
    (Core.pass (Transport.Next t) f (Transport.Delay t) req start abort_V1 c).
Proof.
  unfold V1.iteration, Core.pass, abort_V1.
  apply sim_skip; [repeat sim_step|].
  apply sim_bind; [sim_step|]. intros [resp err].
  apply sim_skip; [repeat sim_step|].
  apply sim_bind; [sim_step|]. intros [d e].
  apply sim_skip; [repeat sim_step|].
  destruct (d =? Ignore); [sim_step|].
  destruct (d =? Abort); [repeat sim_step|].
  apply sim_bind.
  { unfold Core.drain. destruct resp as [r|]; [|sim_step].
    apply sim_bind; [sim_step|]. intros [n e'].
    apply sim_skip; repeat sim_step. }
  intros _. apply sim_bind; [|repeat sim_step].
  unfold Core.pause. destruct (Transport.Delay t); [|sim_step].
  apply sim_skip; repeat sim_step.
Qed.

Lemma V2_iteration_sim {S L} (t : Transport.t S L) req f start c :
  sim (V2.iteration t req (Some f) start c)
    (Core.pass (Transport.Next t) f (Transport.Delay t) req start abort_V2 c).
Proof.
  unfold V2.iteration, Core.pass, abort_V2.
  destruct (Transport.Logger t) as [lg|].
  - apply sim_skip; [repeat sim_step|].
    apply sim_bind; [sim_step|]. intros [resp err].
    apply sim_skip; [repeat sim_step|].
    apply sim_bind; [sim_step|]. intros [d e].
    apply sim_skip; [repeat sim_step|].
    destruct (d =? Ignore); [sim_step|].
    destruct (d =? Abort); [repeat sim_step|].
    apply sim_bind.
    { unfold Core.drain. destruct resp as [r|]; [|sim_step].
      apply sim_bind; [sim_step|]. intros [n e'].
      apply sim_skip; repeat sim_step. }
    intros _. apply sim_bind; [|repeat sim_step].
    unfold Core.pause. destruct (Transport.Delay t); [|sim_step].
    apply sim_skip; repeat sim_step.
  - apply sim_skip; [repeat sim_step|].
    apply sim_bind; [sim_step|]. intros [resp err].
    apply sim_skip; [repeat sim_step|].
    apply sim_bind; [sim_step|]. intros [d e].
    apply sim_skip; [repeat sim_step|].
    destruct (d =? Ignore); [sim_step|].
    destruct (d =? Abort); [repeat sim_step|].
    apply sim_bind.
    { unfold Core.drain. destruct resp as [r|]; [|sim_step].
      apply sim_bind; [sim_step|]. intros [n e'].
      apply sim_skip; repeat sim_step. }
    intros _. apply sim_bind; [|repeat sim_step].
    unfold Core.pause. destruct (Transport.Delay t); [|sim_step].
    apply sim_skip; repeat sim_step.
Qed.

Lemma V1_RoundTrip_unlog {S L} now DefaultRetryer (t : Transport.t S L) fuel req s :
  unlog (V1.RoundTrip now DefaultRetryer t fuel req s)
  = Core.loop (Transport.Next t) (retryer_of DefaultRetryer t) (Transport.Delay t)
      req (now (world s)) abort_V1 fuel 1 (unlog_state s).
Proof.
  unfold V1.RoundTrip, Core.loop, retryer_of.
  apply for_loop_unlog. intros c s'.
  destruct (Transport.Retry t); apply V1_iteration_sim.
Qed.

Lemma V2_RoundTrip_unlog {S L} now DefaultRetryer (t : Transport.t S L) fuel req s :
  unlog (V2.RoundTrip now DefaultRetryer t fuel req s)
  = Core.loop (Transport.Next t) (retryer_of DefaultRetryer t) (Transport.Delay t)
      req (now (world s)) abort_V2 fuel 1 (unlog_state s).
Proof.
  unfold V2.RoundTrip, Core.loop, retryer_of.
  apply for_loop_unlog. intros c s'.
  destruct (Transport.Retry t); apply V2_iteration_sim.
Qed.

(** ** The shape of a pass and of a run *)

Section Shape.
Context {S : Type}.
Variable next : option (RoundTripper S).
Variable retryer : Retryer S.
Variable delay : option (Delayer S).
Variable req : http.Request.
Variable start : Time.
Variable on_abort : option http.Response -> option http.Response.

Local Abbreviation pass := (Core.pass next retryer delay req start on_abort).
Local Abbreviation loop := (Core.loop next retryer delay req start on_abort).
Local Abbreviation shaped := (run_shape next delay req start on_abort).

Lemma copy_limited_bounds b limit n e b' :
  0 <= limit -> copy_limited b limit = ((n, e), b') -> 0 <= n <= limit.
Proof.
  unfold copy_limited. intros Hl H. destruct (closed b); simplify_eq; lia.
Qed.

Lemma drain_shape resp (s : State S unit) :
  exists s' evs, Core.drain resp s = (Some tt, s', evs) /\ drained resp evs.
Proof.
  unfold Core.drain, drained. destruct resp as [r|]; [|by eexists _, _].
  unfold bind, io_Copy_Discard_LimitReader, Body_Close.
  destruct (heap (world s) !! r) as [o|] eqn:Ho.
  - destruct (copy_limited (http.Body o) bodyReadLimit) as [[n e] b] eqn:Hc.
    apply copy_limited_bounds in Hc; [|done]. simpl.
    rewrite lookup_insert_eq. simpl. eexists _, _. split; [done|]. eauto.
  - simpl. rewrite Ho. simpl. eexists _, _. split; [done|].
    eexists _, _. split; [done|]. done.
Qed.

Lemma drop_limit {A} (l : list A) :
  drop (Z.to_nat (Z.min (Z.max 0 bodyReadLimit) (Z.of_nat (length l)))) l
  = drop (Z.to_nat bodyReadLimit) l.
Proof.
  assert (0 <= bodyReadLimit) by done.
  destruct (Z.le_gt_cases (Z.of_nat (length l)) bodyReadLimit) as [Hle|Hgt].
  - rewrite !drop_ge; [done|lia|lia].
  - f_equal. lia.
Qed.

(** On an open body the disposal reads what there is, up to the limit, and
    leaves the body closed. *)
Lemma drain_disposes r (s : State S unit) o :
  heap (world s) !! r = Some o -> closed (http.Body o) = false ->
  exists s',
    Core.drain (Some r) s
    = (Some tt, s',
       [CopyCall r bodyReadLimit
          (Z.min bodyReadLimit (Z.of_nat (length (unread (http.Body o)))))
          (if Z.of_nat (length (unread (http.Body o))) <? bodyReadLimit
           then fault (http.Body o) else None);
        CloseCall r])
    /\ ext (world s') = ext (world s)
    /\ heap (world s')
       = <[r := {| http.StatusCode := http.StatusCode o;
                   http.Body := {| unread := drop (Z.to_nat bodyReadLimit)
                                               (unread (http.Body o));
                                   fault := fault (http.Body o);
                                   closed := true |} |}]> (heap (world s)).
Proof.
  intros Ho Hc.
  unfold Core.drain, bind, io_Copy_Discard_LimitReader, Body_Close.
  rewrite Ho. unfold copy_limited. rewrite Hc. simpl.
  rewrite lookup_insert_eq. simpl. eexists. split_and!; [done|done|].
  rewrite insert_insert_eq. simpl. by rewrite drop_limit.
Qed.

Lemma pause_shape a (s : State S unit) :
  exists s', Core.pause delay a s = (Some tt, s', paused delay a).
Proof.
  unfold Core.pause, paused. destruct delay; by eexists.
Qed.

Lemma pass_shape count s :
  match pass count s with
  | (None, _, evs) => next = None /\ evs = []
  | (Some (Return resp err), _, evs) =>
      exists a d e, attempt_of req start count a /\ terminal d = true
        /\ Returned resp err = outcome on_abort a d e
        /\ evs = [RoundTripCall req (Attempt.Response a) (Attempt.Err a);
                  RetryerCall a d e]
  | (Some Continue, _, evs) =>
      exists a d e tl, attempt_of req start count a /\ terminal d = false
        /\ rejected delay a tl
        /\ evs = RoundTripCall req (Attempt.Response a) (Attempt.Err a)
                 :: RetryerCall a d e :: tl
  end.
Proof.
  unfold Core.pass, bind at 1, Next_RoundTrip.
  destruct next as [rt|]; [|done].
  destruct (rt req (world s)) as [[resp err] w1].
  unfold bind at 1, call_Retryer. simpl.
  destruct (retryer _ w1) as [[d e] w2]. simpl.
  set (a := {| Attempt.Start := start; Attempt.Count := count; Attempt.Err := err;
               Attempt.Request := req; Attempt.Response := resp |}).
  destruct (d =? Ignore) eqn:Hi.
  { simpl. exists a, d, e. unfold terminal, outcome. rewrite Hi. done. }
  destruct (d =? Abort) eqn:Ha.
  { simpl. exists a, d, e. unfold terminal, outcome. rewrite Hi, Ha. done. }
  unfold bind.
  destruct (drain_shape resp {| world := w2; sink := sink s |}) as (s1 & dr & -> & Hdr).
  destruct (pause_shape a s1) as (s2 & ->). simpl.
  exists a, d, e, (dr ++ paused delay a). unfold terminal. rewrite Hi, Ha.
  split_and!; try done.
  - by exists dr.
  - by rewrite app_nil_r.
Qed.

Lemma loop_shape fuel : forall count s,
  shaped fuel count (trace (loop fuel count s)) (result (loop fuel count s)).
Proof.
  induction fuel as [|fuel IH]; intros count s; [constructor|].
  unfold Core.loop. simpl. pose proof (pass_shape count s) as Hp.
  destruct (pass count s) as [[[[|resp err]|] s1] evs]; simpl.
  - destruct Hp as (a & d & e & tl & Ha & Hd & Htl & ->).
    simpl. apply run_continue; try done. apply IH.
  - destruct Hp as (a & d & e & Ha & Hd & -> & ->). by apply run_return.
  - destruct Hp as [Hn ->]. by apply run_panic.
Qed.

Lemma rejected_retryer_calls a tl : rejected delay a tl -> retryer_calls tl = [].
Proof.
  intros (dr & Hdr & ->). unfold retryer_calls, drained, paused in *.
  rewrite omap_app. destruct (Attempt.Response a), delay;
    try destruct Hdr as (n & e & -> & _); by subst.
Qed.

Lemma rejected_transport_calls a tl : rejected delay a tl -> transport_calls tl = [].
Proof.
  intros (dr & Hdr & ->). unfold transport_calls, drained, paused in *.
  rewrite omap_app. destruct (Attempt.Response a), delay;
    try destruct Hdr as (n & e & -> & _); by subst.
Qed.


Lemma retryer_calls_continue a d e resp err tl tr :
  rejected delay a tl ->
  retryer_calls (RoundTripCall req resp err :: RetryerCall a d e :: tl ++ tr)
  = (a, d, e) :: retryer_calls tr.
Proof.
  intros Htl. unfold retryer_calls. simpl. rewrite omap_app.
  fold (retryer_calls tl). by rewrite (rejected_retryer_calls a).
Qed.

Lemma transport_calls_continue a d e resp err tl tr :
  rejected delay a tl ->
  transport_calls (RoundTripCall req resp err :: RetryerCall a d e :: tl ++ tr)
  = (req, resp, err) :: transport_calls tr.
Proof.
  intros Htl. unfold transport_calls. simpl. rewrite omap_app.
  fold (transport_calls tl). by rewrite (rejected_transport_calls a).
Qed.

(** One call of the transport for each call of the retryer, which is given
    what the transport returned. *)
Lemma shape_transport_calls fuel count tr res :
  shaped fuel count tr res ->
  transport_calls tr
  = (fun c => (req, Attempt.Response c.1.1, Attempt.Err c.1.1)) <$> retryer_calls tr.
Proof.
  induction 1 as [| | |fuel count a d e tl tr res Ha Hd Htl _ IH]; try done.
  rewrite transport_calls_continue, retryer_calls_continue by done.
  simpl. by rewrite IH.
Qed.

Lemma shape_calls_length fuel count tr res :
  shaped fuel count tr res -> (length (retryer_calls tr) <= fuel)%nat.
Proof.
  induction 1 as [| | |fuel count a d e tl tr res Ha Hd Htl _ IH];
    [simpl; lia..|].
  rewrite retryer_calls_continue by done. simpl. lia.
Qed.

(** The attempt of the call numbered [i] (from 0) carries the count reached
    after [i] increments. *)
Lemma shape_attempt fuel count tr res :
  shaped fuel count tr res ->
  forall i a d e, retryer_calls tr !! i = Some (a, d, e) ->
    attempt_of req start (Nat.iter i uint_incr count) a.
Proof.
  induction 1 as [| |fuel count a0 d0 e0 Ha Hd
                  |fuel count a0 d0 e0 tl tr res Ha Hd Htl _ IH];
    intros i a d e Hi; try done.
  - destruct i as [|i]; simplify_eq/=; done.
  - rewrite retryer_calls_continue in Hi by done.
    destruct i as [|i]; simpl in Hi; simplify_eq; [done|].
    rewrite Nat.iter_succ_r. eauto.
Qed.

(** A terminal decision is the last one, and decides the result. *)
Lemma shape_terminal fuel count tr res :
  shaped fuel count tr res ->
  forall i a d e, retryer_calls tr !! i = Some (a, d, e) -> terminal d = true ->
    res = outcome on_abort a d e /\ length (retryer_calls tr) = Datatypes.S i.
Proof.
  induction 1 as [| |fuel count a0 d0 e0 Ha Hd
                  |fuel count a0 d0 e0 tl tr res Ha Hd Htl _ IH];
    intros i a d e Hi Ht; try done.
  - destruct i as [|i]; simplify_eq/=; done.
  - rewrite retryer_calls_continue in Hi |- * by done.
    destruct i as [|i]; simplify_eq/=; [congruence|].
    destruct (IH _ _ _ _ Hi Ht) as [-> ->]. done.
Qed.

(** A decision that keeps the loop going on the last pass the fuel allows
    leaves the loop running. *)
Lemma shape_going fuel count tr res :
  shaped fuel count tr res ->
  forall a d e, retryer_calls tr !! pred fuel = Some (a, d, e) ->
    terminal d = false -> res = OutOfFuel.
Proof.
  induction 1 as [| |fuel count a0 d0 e0 Ha Hd
                  |fuel count a0 d0 e0 tl tr res Ha Hd Htl Hr IH];
    intros a d e Hi Ht; try done.
  - destruct fuel as [|fuel]; simplify_eq/=; congruence.
  - rewrite retryer_calls_continue in Hi by done.
    destruct fuel as [|fuel]; simpl in *.
    + by inversion Hr.
    + eauto.
Qed.

(** How a run ended, read from its calls. *)
Lemma shape_returned fuel count tr res resp err :
  shaped fuel count tr res -> res = Returned resp err ->
  exists a d e, last (retryer_calls tr) = Some (a, d, e) /\ terminal d = true
    /\ res = outcome on_abort a d e.
Proof.
  induction 1 as [| |fuel count a0 d0 e0 Ha Hd
                  |fuel count a0 d0 e0 tl tr res Ha Hd Htl Hr IH];
    intros Hres; try done.
  - by exists a0, d0, e0.
  - destruct (IH Hres) as (a & d & e & Hl & Ht & Ho).
    exists a, d, e. rewrite retryer_calls_continue by done.
    split_and!; try done.
    destruct (retryer_calls tr); [done|]. done.
Qed.

Lemma shape_out_of_fuel fuel count tr res :
  shaped fuel count tr res -> res = OutOfFuel ->
  length (retryer_calls tr) = fuel
  /\ Forall (fun c => terminal c.1.2 = false) (retryer_calls tr).
Proof.
  induction 1 as [| |fuel count a0 d0 e0 Ha Hd
                  |fuel count a0 d0 e0 tl tr res Ha Hd Htl Hr IH];
    intros Hres; try done.
  - unfold outcome in Hres. by destruct (d0 =? Ignore).
  - destruct (IH Hres) as [Hl Hf].
    rewrite retryer_calls_continue by done. simpl. split; [lia|].
    by constructor.
Qed.

Lemma shape_panicked fuel count tr res :
  shaped fuel count tr res -> res = Panicked -> next = None.
Proof.
  induction 1 as [| |fuel count a0 d0 e0 Ha Hd
                  |fuel count a0 d0 e0 tl tr res Ha Hd Htl Hr IH];
    intros Hres; try done; eauto.
  unfold outcome in Hres. by destruct (d0 =? Ignore).
Qed.


Lemma shape_head fuel count tr res :
  shaped fuel count tr res -> transport_next req tr.
Proof. destruct 1; [by left|by left|right; eauto..]. Qed.

Lemma rejected_no_retryer_call a tl :
  rejected delay a tl -> Forall (fun ev => is_RetryerCall ev = false) tl.
Proof.
  intros (dr & Hdr & ->). unfold drained, paused in *.
  destruct (Attempt.Response a), delay;
    try destruct Hdr as (n & e & -> & _); subst; repeat constructor.
Qed.

Lemma split_past (l1 l2 pre post : list Event) x :
  Forall (fun ev => is_RetryerCall ev = false) l1 -> is_RetryerCall x = true ->
  l1 ++ l2 = pre ++ x :: post ->
  exists pre', pre = l1 ++ pre' /\ l2 = pre' ++ x :: post.
Proof.
  intros Hl Hx. revert pre. induction Hl as [|y l1 Hy _ IH]; intros pre Heq.
  - by exists pre.
  - destruct pre as [|z pre]; simplify_eq/=; [congruence|].
    destruct (IH pre) as (pre' & -> & ->); [done|]. by exists pre'.
Qed.

(** What follows a call of the retryer: nothing after a terminal decision;
    otherwise the disposal of the response, the delay, and then the next
    pass. *)
Lemma shape_after_retryer fuel count tr res :
  shaped fuel count tr res ->
  forall pre a d e post, tr = pre ++ RetryerCall a d e :: post ->
    if terminal d then post = []
    else exists tl rest, rejected delay a tl /\ post = tl ++ rest
                         /\ transport_next req rest.
Proof.
  induction 1 as [| |fuel count a0 d0 e0 Ha Hd
                  |fuel count a0 d0 e0 tl tr res Ha Hd Htl Hr IH];
    intros pre a d e post Heq.
  - by destruct pre.
  - by destruct pre.
  - destruct pre as [|x [|y pre]]; simplify_eq/=.
    + by rewrite Hd.
    + by destruct pre.
  - destruct pre as [|x [|y pre]]; simplify_eq/=.
    + rewrite Hd. exists tl, tr. split_and!; try done. by eapply shape_head.
    + match goal with
      | H : _ ++ _ = _ ++ _ :: _ |- _ =>
          apply split_past in H as (pre' & -> & ->);
            [|by eapply rejected_no_retryer_call|done]
      end.
      by eapply IH.
Qed.

End Shape.

(** ** Fuel *)

Lemma for_loop_more {S L} (body : Z -> M S L Flow) n : forall m count s,
  result (for_loop body n count s) <> OutOfFuel -> (n <= m)%nat ->
  for_loop body m count s = for_loop body n count s.
Proof.
  induction n as [|n IH]; intros m count s Hr Hm; [done|].
  destruct m as [|m]; [lia|]. simpl in *.
  destruct (body count s) as [[[[|resp err]|] s1] e1]; simpl in *; try done.
  rewrite (IH m); [done|done|lia].
Qed.

Section Prefix.
Context {S : Type}.
Variable next : option (RoundTripper S).
Variable retryer : Retryer S.
Variable delay : option (Delayer S).
Variable req : http.Request.
Variable start : Time.
Variable on_abort : option http.Response -> option http.Response.

Local Abbreviation pass := (Core.pass next retryer delay req start on_abort).
Local Abbreviation loop := (Core.loop next retryer delay req start on_abort).

(** With less fuel the loop makes the first calls of the longer run. *)
Lemma loop_calls_take m : forall n count s, (m <= n)%nat ->
  retryer_calls (trace (loop m count s))
  = take m (retryer_calls (trace (loop n count s))).
Proof.
  induction m as [|m IH]; intros n count s Hm; [done|].
  destruct n as [|n]; [lia|]. unfold Core.loop. simpl.
  pose proof (pass_shape next retryer delay req start on_abort count s) as Hp.
  destruct (pass count s) as [[[[|resp err]|] s1] evs]; simpl.
  - destruct Hp as (a & d & e & tl & Ha & Hd & Htl & ->). cbn [trace app].
    rewrite !(retryer_calls_continue delay req a) by done. simpl.
    f_equal. apply IH. lia.
  - destruct Hp as (a & d & e & Ha & Hd & _ & ->). simpl. by rewrite take_nil.
  - by destruct Hp as [_ ->].
Qed.

End Prefix.

(** The count of the pass numbered [i] (from 0). *)
Lemma count_iter i : Nat.iter i uint_incr 1 = uint (Z.of_nat i + 1).
Proof.
  induction i as [|i IH]; [done|].
  simpl. rewrite IH. unfold uint_incr, uint.
  rewrite Zplus_mod_idemp_l. f_equal. lia.
Qed.

Section Runs.
Context {S L : Type}.
Variable doc : Document.
Variable now : World S -> Time.
Variable DefaultRetryer : Retryer S.
Variable t : Transport.t S L.
Variable req : http.Request.
Variable s : State S L.

Local Abbreviation run fuel := (RoundTrip doc now DefaultRetryer t fuel req s).
Local Abbreviation call := (retryer_call doc now DefaultRetryer t req s).
Local Abbreviation core fuel :=
  (Core.loop (Transport.Next t) (retryer_of DefaultRetryer t)
     (Transport.Delay t) req (now (world s)) (abort_of doc) fuel 1
     (unlog_state s)).
Local Abbreviation shape :=
  (run_shape (Transport.Next t) (Transport.Delay t) req (now (world s)) (abort_of doc)).

Lemma run_unlog fuel : unlog (run fuel) = core fuel.
Proof.
  destruct doc; [apply V1_RoundTrip_unlog|apply V2_RoundTrip_unlog].
Qed.

Lemma run_trace fuel : trace (run fuel) = trace (core fuel).
Proof. by rewrite <- run_unlog. Qed.

Lemma run_result fuel : result (run fuel) = result (core fuel).
Proof. by rewrite <- run_unlog. Qed.

Lemma run_shape_holds fuel : shape fuel 1 (trace (run fuel)) (result (run fuel)).
Proof. rewrite run_trace, run_result. apply loop_shape. Qed.

Lemma run_more n m :
  result (run n) <> OutOfFuel -> (n <= m)%nat -> run m = run n.
Proof.
  unfold RoundTrip, V1.RoundTrip, V2.RoundTrip.
  destruct doc; apply for_loop_more.
Qed.

Lemma call_lookup N fuel :
  (1 <= N <= fuel)%nat -> retryer_calls (trace (run fuel)) !! pred N = call N.
Proof.
  intros HN. unfold retryer_call. rewrite !run_trace.
  rewrite (loop_calls_take _ _ _ _ _ _ N fuel) by lia.
  rewrite lookup_take_lt by lia. done.
Qed.

Lemma call_positive N c : call N = Some c -> (1 <= N)%nat.
Proof.
  destruct N as [|N]; [|lia]. unfold retryer_call, RoundTrip.
  by destruct doc.
Qed.

Lemma call_attempt N a d e :
  call N = Some (a, d, e) ->
  Attempt.Start a = now (world s) /\ Attempt.Count a = uint (Z.of_nat N)
  /\ Attempt.Request a = req.
Proof.
  intros Hc. pose proof (call_positive _ _ Hc) as HN.
  destruct (shape_attempt _ _ _ _ _ _ _ _ _ (run_shape_holds N) _ _ _ _ Hc)
    as (H1 & H2 & H3).
  split_and!; try done. rewrite H2, count_iter. f_equal. lia.
Qed.

Lemma call_terminal N a d e :
  call N = Some (a, d, e) -> terminal d = true ->
  result (run N) = outcome (abort_of doc) a d e
  /\ length (retryer_calls (trace (run N))) = N
  /\ forall fuel, (N <= fuel)%nat -> run fuel = run N.
Proof.
  intros Hc Hd. pose proof (call_positive _ _ Hc) as HN.
  destruct (shape_terminal _ _ _ _ _ _ _ _ _ (run_shape_holds N) _ _ _ _ Hc Hd)
    as [Hr Hl].
  split_and!; [done|lia|].
  intros fuel Hf. apply run_more; [|done].
  rewrite Hr. unfold outcome. by destruct (d =? Ignore).
Qed.

Lemma call_going N a d e :
  call N = Some (a, d, e) -> terminal d = false -> result (run N) = OutOfFuel.
Proof.
  intros Hc Hd. by eapply shape_going; [apply run_shape_holds|..].
Qed.

End Runs.

(** ** Properties of [RoundTrip] *)

Lemma decision_on_call {S L} doc now DefaultRetryer (t : Transport.t S L) req s N d :
  decision_on doc now DefaultRetryer t req s N = Some d ->
  exists a e, retryer_call doc now DefaultRetryer t req s N = Some (a, d, e).
Proof.
  unfold decision_on. intros H. apply fmap_Some in H as ([[a d'] e] & Hc & ->).
  by exists a, e.
Qed.

Lemma terminal_cases d : terminal d = true <-> d = Ignore \/ d = Abort.
Proof. unfold terminal, Ignore, Abort. lia. Qed.

Lemma terminal_Retry : terminal Retry = false.
Proof. done. Qed.

(** C2, as amended: if the retryer answers [Retry] on the attempts 1 to
    [N - 1] and [Ignore] or [Abort] on the attempt [N], then [RoundTrip]
    returns after exactly [N] calls of the underlying transport, and the
    attempt handed to the retryer on the call numbered [k] carries the start
    time read once at entry and the count [k] modulo [2 ^ 64], which is [k]
    itself as long as [k] fits a [uint]. *)
Theorem attempts_are_numbered {S L} (doc : Document) (now : World S -> Time)
  (DefaultRetryer : Retryer S) (t : Transport.t S L) (req : http.Request)
  (s : State S L) (N : nat) (d : Decision) :
  (1 <= N)%nat ->
  (forall k, (1 <= k < N)%nat ->
     decision_on doc now DefaultRetryer t req s k = Some Retry) ->
  decision_on doc now DefaultRetryer t req s N = Some d ->
  d = Ignore \/ d = Abort ->
  forall fuel, (N <= fuel)%nat ->
    let r := RoundTrip doc now DefaultRetryer t fuel req s in
    (exists resp err, result r = Returned resp err)
    /\ length (transport_calls (trace r)) = N
    /\ forall k, (1 <= k <= N)%nat ->
         exists a d' e, retryer_calls (trace r) !! pred k = Some (a, d', e)
           /\ Attempt.Start a = now (world s)
           /\ Attempt.Count a = uint (Z.of_nat k)
           /\ (Z.of_nat k < uint_modulus -> Attempt.Count a = Z.of_nat k).
Proof.
  intros HN _ Hd Hterm fuel Hfuel r.
  apply decision_on_call in Hd as (a & e & Hc).
  apply terminal_cases in Hterm.
  destruct (call_terminal _ _ _ _ _ _ _ _ _ _ Hc Hterm) as (Hres & Hlen & Hmore).
  subst r. rewrite (Hmore fuel Hfuel). split_and!.
  - rewrite Hres. unfold outcome. destruct (d =? Ignore); eauto.
  - rewrite (shape_transport_calls _ _ _ _ _ _ _ _ _
               (run_shape_holds doc now DefaultRetryer t req s N)).
    by rewrite length_fmap.
  - intros k Hk.
    destruct (lookup_lt_is_Some_2 (retryer_calls
                (trace (RoundTrip doc now DefaultRetryer t N req s))) (pred k))
      as [[[a' d'] e'] Hk']; [lia|].
    exists a', d', e'. split; [done|].
    rewrite call_lookup in Hk' by lia.
    apply call_attempt in Hk' as (H1 & H2 & _).
    split_and!; try done.
    intros Hlt. rewrite H2. unfold uint. apply Z.mod_small. lia.
Qed.

Lemma attempts_are_numbered_witness :
  (1 <= 3)%nat
  /\ (forall k, (1 <= k < 3)%nat ->
        decision_on Second Examples.clock (Examples.upto 1 (Ignore, None))
          Examples.giving_up Examples.req Examples.start k = Some Retry)
  /\ decision_on Second Examples.clock (Examples.upto 1 (Ignore, None))
       Examples.giving_up Examples.req Examples.start 3 = Some Abort
  /\ (let r := RoundTrip Second Examples.clock (Examples.upto 1 (Ignore, None))
                 Examples.giving_up 5 Examples.req Examples.start in
      (exists resp err, result r = Returned resp err)
      /\ length (transport_calls (trace r)) = 3%nat
      /\ forall k, (1 <= k <= 3)%nat ->
           exists a d' e, retryer_calls (trace r) !! pred k = Some (a, d', e)
             /\ Attempt.Start a = Examples.clock (world Examples.start)
             /\ Attempt.Count a = uint (Z.of_nat k)
             /\ (Z.of_nat k < uint_modulus -> Attempt.Count a = Z.of_nat k)).
Proof.
  assert (H : forall k, (1 <= k < 3)%nat ->
            decision_on Second Examples.clock (Examples.upto 1 (Ignore, None))
              Examples.giving_up Examples.req Examples.start k = Some Retry).
  { intros k Hk. assert (k = 1 \/ k = 2)%nat as [-> | ->] by lia; reflexivity. }
  split_and!; [lia|exact H|reflexivity|].
  apply (attempts_are_numbered Second Examples.clock (Examples.upto 1 (Ignore, None))
           Examples.giving_up Examples.req Examples.start 3 Abort);
    [lia|exact H|reflexivity|by right|lia].
Defined.

(** C5: if the retryer answers [Ignore] on the first attempt, whatever error
    it returns with it, [RoundTrip] calls the underlying transport once and
    returns the response and the error of that call. *)
Theorem ignore_returns_first_answer {S L} (doc : Document) (now : World S -> Time)
  (DefaultRetryer : Retryer S) (t : Transport.t S L) (req : http.Request)
  (s : State S L) (a : Attempt.t) (retryErr : error) :
  retryer_call doc now DefaultRetryer t req s 1 = Some (a, Ignore, retryErr) ->
  forall fuel, (1 <= fuel)%nat ->
    let r := RoundTrip doc now DefaultRetryer t fuel req s in
    exists resp err,
      transport_calls (trace r) = [(req, resp, err)]
      /\ result r = Returned resp err.
Proof.
  intros Hc fuel Hfuel r.
  destruct (call_terminal _ _ _ _ _ _ _ _ _ _ Hc eq_refl) as (Hres & Hlen & Hmore).
  subst r. rewrite (Hmore fuel Hfuel).
  exists (Attempt.Response a), (Attempt.Err a). split; [|done].
  rewrite (shape_transport_calls _ _ _ _ _ _ _ _ _
             (run_shape_holds doc now DefaultRetryer t req s 1)).
  unfold retryer_call in Hc. simpl in Hc.
  destruct (retryer_calls _) as [|c [|c' l]]; simplify_eq/=. done.
Qed.

Lemma ignore_returns_first_answer_witness :
  retryer_call First Examples.clock (Examples.upto 1 (Ignore, None))
    Examples.first_try Examples.req Examples.start 1
  = Some ({| Attempt.Start := 1000; Attempt.Count := 1; Attempt.Err := None;
             Attempt.Request := Examples.req; Attempt.Response := Some 1%nat |},
          Ignore, Some "ignored"%string)
  /\ (let r := RoundTrip First Examples.clock (Examples.upto 1 (Ignore, None))
                 Examples.first_try 4 Examples.req Examples.start in
      exists resp err,
        transport_calls (trace r) = [(Examples.req, resp, err)]
        /\ result r = Returned resp err).
Proof.
  split; [reflexivity|].
  apply (ignore_returns_first_answer First Examples.clock
           (Examples.upto 1 (Ignore, None)) Examples.first_try Examples.req
           Examples.start
           {| Attempt.Start := 1000; Attempt.Count := 1; Attempt.Err := None;
              Attempt.Request := Examples.req; Attempt.Response := Some 1%nat |}
           (Some "ignored"%string));
    [reflexivity|lia].
Defined.

(** X3: what each document returns on [Abort]: the first one the response of
    the attempt, the second one [nil]; both return the error of the retryer. *)
Lemma abort_returns {S L} (doc : Document) (now : World S -> Time)
  (DefaultRetryer : Retryer S) (t : Transport.t S L) (req : http.Request)
  (s : State S L) (N : nat) (a : Attempt.t) (e : error) :
  retryer_call doc now DefaultRetryer t req s N = Some (a, Abort, e) ->
  forall fuel, (N <= fuel)%nat ->
    result (RoundTrip doc now DefaultRetryer t fuel req s)
    = Returned (match doc with
                | First => Attempt.Response a
                | Second => None
                end) e.
Proof.
  intros Hc fuel Hfuel.
  destruct (call_terminal _ _ _ _ _ _ _ _ _ _ Hc eq_refl) as (Hres & _ & Hmore).
  rewrite (Hmore fuel Hfuel), Hres. by destruct doc.
Qed.

(** A call of the retryer that answers [Abort] is the last call of the run:
    neither document reads or closes the body of the response. *)
Lemma abort_ends_run {S L} (doc : Document) (now : World S -> Time)
  (DefaultRetryer : Retryer S) (t : Transport.t S L) (req : http.Request)
  (s : State S L) (fuel : nat) (pre post : list Event) (a : Attempt.t) (e : error) :
  trace (RoundTrip doc now DefaultRetryer t fuel req s)
  = pre ++ RetryerCall a Abort e :: post ->
  post = [].
Proof.
  intros Htr.
  exact (shape_after_retryer _ _ _ _ _ _ _ _ _
           (run_shape_holds doc now DefaultRetryer t req s fuel) _ _ _ _ _ Htr).
Qed.

(** C1, on the first document: the underlying transport answers the first
    attempt with a response and no error, the retryer answers [Abort] with
    the error "server error", and [RoundTrip] returns that response with the
    error of the retryer, not [nil]. *)
Theorem first_document_abort_keeps_response :
  let r := RoundTrip First Examples.clock (Examples.upto 1 (Ignore, None))
             Examples.aborting 1 Examples.req Examples.start in
  retryer_calls (trace r)
  = [({| Attempt.Start := 1000; Attempt.Count := 1; Attempt.Err := None;
         Attempt.Request := Examples.req; Attempt.Response := Some 1%nat |},
      Abort, Some "server error"%string)]
  /\ result r = Returned (Some 1%nat) (Some "server error"%string).
Proof. split; reflexivity. Qed.

(** C3, on both documents: the retryer answers [Abort] for an attempt that
    has a response; [RoundTrip] returns after the call of the retryer,
    without a read or a [Close] of the body, which is left open with all its
    bytes unread. *)
Theorem abort_leaves_body_open (doc : Document) :
  let r := RoundTrip doc Examples.clock (Examples.upto 1 (Ignore, None))
             Examples.aborting 1 Examples.req Examples.start in
  let a := {| Attempt.Start := 1000; Attempt.Count := 1; Attempt.Err := None;
              Attempt.Request := Examples.req; Attempt.Response := Some 1%nat |} in
  trace r = [RoundTripCall Examples.req (Some 1%nat) None;
             RetryerCall a Abort (Some "server error"%string)]
  /\ (exists resp, result r = Returned resp (Some "server error"%string))
  /\ (fun o => (closed (http.Body o), length (unread (http.Body o))))
       <$> heap (world (final r)) !! 1%nat
     = Some (false, 5000%nat).
Proof.
  destruct doc; (split_and!; [reflexivity|eexists; reflexivity|]);
    vm_compute; reflexivity.
Qed.

(** C10, at the same input: the two documents make the same calls and
    return different responses. *)
Theorem documents_differ_on_abort :
  let r1 := RoundTrip First Examples.clock (Examples.upto 1 (Ignore, None))
              Examples.aborting 1 Examples.req Examples.start in
  let r2 := RoundTrip Second Examples.clock (Examples.upto 1 (Ignore, None))
              Examples.aborting 1 Examples.req Examples.start in
  trace r1 = trace r2
  /\ result r1 = Returned (Some 1%nat) (Some "server error"%string)
  /\ result r2 = Returned None (Some "server error"%string)
  /\ result r1 <> result r2.
Proof. split_and!; try reflexivity. discriminate. Qed.

(** Apart from the response returned on [Abort], and from what they log,
    the two documents do the same. *)
Lemma pass_abort_irrelevant {S} (next : option (RoundTripper S)) retryer delay req
  start count s :
  let p1 := Core.pass next retryer delay req start abort_V1 count s in
  let p2 := Core.pass next retryer delay req start abort_V2 count s in
  p1.2 = p2.2 /\ p1.1.2 = p2.1.2
  /\ (p1.1.1 = p2.1.1
      \/ exists r e, p1.1.1 = Some (Return (Some r) e)
                     /\ p2.1.1 = Some (Return None e)).
Proof.
  intros p1 p2. subst p1 p2.
  unfold Core.pass, bind, Next_RoundTrip, call_Retryer.
  destruct next as [rt|]; [|by auto].
  destruct (rt req (world s)) as [[resp err] w1]. simpl.
  destruct (retryer _ w1) as [[d e] w2]. simpl.
  destruct (d =? Ignore); [by auto|].
  destruct (d =? Abort); [|by auto].
  simpl. split_and!; try done. unfold abort_V1, abort_V2.
  destruct resp as [r|]; [right; by exists r, e|by left].
Qed.

Lemma loop_abort_irrelevant {S} (next : option (RoundTripper S)) retryer delay req
  start fuel : forall count s,
  let r1 := Core.loop next retryer delay req start abort_V1 fuel count s in
  let r2 := Core.loop next retryer delay req start abort_V2 fuel count s in
  trace r1 = trace r2 /\ final r1 = final r2
  /\ (result r1 = result r2
      \/ exists r e, result r1 = Returned (Some r) e /\ result r2 = Returned None e).
Proof.
  induction fuel as [|fuel IH]; intros count s; [by auto|].
  unfold Core.loop. simpl.
  destruct (pass_abort_irrelevant next retryer delay req start count s)
    as (He & Hs & Hr).
  destruct (Core.pass next retryer delay req start abort_V1 count s)
    as [[fl1 s1] e1].
  destruct (Core.pass next retryer delay req start abort_V2 count s)
    as [[fl2 s2] e2].
  simpl in *. subst e2 s2. destruct Hr as [<- | (r & e & -> & ->)].
  - destruct fl1 as [[|resp err]|]; simpl; [|by auto..].
    destruct (IH (uint_incr count) s1) as (Ht & Hf & Hres).
    unfold Core.loop in *. rewrite Ht, Hf. split_and!; try done.
  - simpl. split_and!; try done. right. by exists r, e.
Qed.

(** The two documents make the same calls and leave the same world, and
    they return the same or, at worst, a response against [nil]. *)
Lemma documents_agree {S L} (now : World S -> Time) (DefaultRetryer : Retryer S)
  (t : Transport.t S L) (fuel : nat) (req : http.Request) (s : State S L) :
  let r1 := RoundTrip First now DefaultRetryer t fuel req s in
  let r2 := RoundTrip Second now DefaultRetryer t fuel req s in
  trace r1 = trace r2
  /\ world (final r1) = world (final r2)
  /\ (result r1 = result r2
      \/ exists r e, result r1 = Returned (Some r) e /\ result r2 = Returned None e).
Proof.
  intros r1 r2.
  pose proof (run_unlog First now DefaultRetryer t req s fuel) as H1.
  pose proof (run_unlog Second now DefaultRetryer t req s fuel) as H2.
  destruct (loop_abort_irrelevant (Transport.Next t) (retryer_of DefaultRetryer t)
              (Transport.Delay t) req (now (world s)) fuel 1 (unlog_state s))
    as (Ht & Hf & Hr).
  cbn [abort_of] in H1, H2.
  cbv zeta in Ht, Hf, Hr. rewrite <- H1, <- H2 in Ht, Hf, Hr.
  subst r1 r2. split_and!; [exact Ht| |exact Hr].
  unfold unlog, unlog_state in Hf. simpl in Hf. by injection Hf.
Qed.

(** C4: when the retryer answers [Retry] for an attempt that has a response,
    the next two calls of the controller read the body of that response
    through a reader limited to 4096 bytes and close it; the calls of the
    underlying transport that follow the decision all come after them. *)
Theorem retry_drains_then_closes {S L} (doc : Document) (now : World S -> Time)
  (DefaultRetryer : Retryer S) (t : Transport.t S L) (req : http.Request)
  (s : State S L) (fuel : nat) (pre post : list Event) (a : Attempt.t)
  (e : error) (r : http.Response) :
  trace (RoundTrip doc now DefaultRetryer t fuel req s)
  = pre ++ RetryerCall a Retry e :: post ->
  Attempt.Response a = Some r ->
  exists n err rest,
    post = CopyCall r 4096 n err :: CloseCall r :: rest
    /\ 0 <= n <= 4096
    /\ transport_calls post = transport_calls rest.
Proof.
  intros Htr Hr.
  pose proof (shape_after_retryer _ _ _ _ _ _ _ _ _
                (run_shape_holds doc now DefaultRetryer t req s fuel)
                _ _ _ _ _ Htr) as H.
  rewrite terminal_Retry in H.
  destruct H as (tl & rest & (dr & Hdr & ->) & -> & _).
  unfold drained in Hdr. rewrite Hr in Hdr.
  destruct Hdr as (n & err & -> & Hn).
  exists n, err, (paused (Transport.Delay t) a ++ rest).
  rewrite <- app_assoc. unfold bodyReadLimit in *.
  split_and!; first [done | lia].
Qed.

Lemma retry_drains_then_closes_witness :
  let a1 := {| Attempt.Start := 1000; Attempt.Count := 1; Attempt.Err := None;
               Attempt.Request := Examples.req; Attempt.Response := Some 1%nat |} in
  let a2 := {| Attempt.Start := 1000; Attempt.Count := 2; Attempt.Err := None;
               Attempt.Request := Examples.req; Attempt.Response := Some 102%nat |} in
  let post := [CopyCall 1%nat 4096 4096 None; CloseCall 1%nat; DelayCall a1;
               RoundTripCall Examples.req (Some 102%nat) None;
               RetryerCall a2 Ignore (Some "ignored"%string)] in
  trace (RoundTrip First Examples.clock (Examples.upto 1 (Ignore, None))
           Examples.second_try 3 Examples.req Examples.start)
  = [RoundTripCall Examples.req (Some 1%nat) None] ++ RetryerCall a1 Retry None :: post
  /\ Attempt.Response a1 = Some 1%nat
  /\ exists n err rest,
       post = CopyCall 1%nat 4096 n err :: CloseCall 1%nat :: rest
       /\ 0 <= n <= 4096
       /\ transport_calls post = transport_calls rest.
Proof.
  intros a1 a2 post. split_and!; [reflexivity|reflexivity|].
  apply (retry_drains_then_closes First Examples.clock
           (Examples.upto 1 (Ignore, None)) Examples.second_try Examples.req
           Examples.start 3 [RoundTripCall Examples.req (Some 1%nat) None] post a1
           None 1%nat);
    reflexivity.
Defined.



(** C7: [RoundTrip] returns if and only if the retryer answers [Ignore] or
    [Abort] on some attempt; and if it answers [Retry] on every attempt, the
    loop is still running after any number of passes, having called the
    underlying transport once in each. *)
Theorem returns_iff_terminal_decision {S L} (doc : Document) (now : World S -> Time)
  (DefaultRetryer : Retryer S) (t : Transport.t S L) (req : http.Request)
  (s : State S L) :
  ((exists fuel resp err,
      result (RoundTrip doc now DefaultRetryer t fuel req s) = Returned resp err)
   <-> (exists N, decision_on doc now DefaultRetryer t req s N = Some Ignore
                  \/ decision_on doc now DefaultRetryer t req s N = Some Abort))
  /\ ((forall N, (1 <= N)%nat ->
         decision_on doc now DefaultRetryer t req s N = Some Retry) ->
      forall fuel,
        result (RoundTrip doc now DefaultRetryer t fuel req s) = OutOfFuel
        /\ length (transport_calls
                     (trace (RoundTrip doc now DefaultRetryer t fuel req s))) = fuel).
Proof.
  split; [split|].
  - intros (fuel & resp & err & Hres).
    pose proof (run_shape_holds doc now DefaultRetryer t req s fuel) as Hs.
    destruct (shape_returned _ _ _ _ _ _ _ _ _ _ _ Hs Hres)
      as (a & d & e & Hl & Hd & _).
    pose proof (shape_calls_length _ _ _ _ _ _ _ _ _ Hs) as Hlen.
    rewrite last_lookup in Hl.
    assert (1 <= length (retryer_calls
                   (trace (RoundTrip doc now DefaultRetryer t fuel req s))))%nat.
    { destruct (retryer_calls _); [done|simpl; lia]. }
    rewrite call_lookup in Hl by lia.
    eexists. unfold decision_on. rewrite Hl. simpl.
    apply terminal_cases in Hd as [-> | ->]; auto.
  - intros (N & Hd).
    assert (exists d, decision_on doc now DefaultRetryer t req s N = Some d
                      /\ terminal d = true) as (d & Hd' & Ht).
    { destruct Hd; eauto. }
    apply decision_on_call in Hd' as (a & e & Hc).
    destruct (call_terminal _ _ _ _ _ _ _ _ _ _ Hc Ht) as (Hres & _).
    exists N. rewrite Hres. unfold outcome. destruct (d =? Ignore); eauto.
  - intros Hall fuel.
    pose proof (run_shape_holds doc now DefaultRetryer t req s fuel) as Hs.
    assert (result (RoundTrip doc now DefaultRetryer t fuel req s) = OutOfFuel)
      as Hres.
    { destruct fuel as [|fuel]; [by destruct doc|].
      destruct (decision_on_call _ _ _ _ _ _ _ _ (Hall (Datatypes.S fuel) ltac:(lia)))
        as (a & e & Hc).
      by eapply call_going. }
    split; [done|].
    rewrite (shape_transport_calls _ _ _ _ _ _ _ _ _ Hs), length_fmap.
    by destruct (shape_out_of_fuel _ _ _ _ _ _ _ _ _ Hs Hres).
Qed.

(** C9: a run with a logger and the run without it return the same, leave
    the same world (the sink of the logger apart), and make the same calls,
    with the same attempts, to the underlying transport, the retryer, the
    body and the delayer. *)
Theorem logger_is_not_observable {S L} (doc : Document) (now : World S -> Time)
  (DefaultRetryer : Retryer S) (delay : option (Delayer S))
  (retry : option (Retryer S)) (next : option (RoundTripper S))
  (logger : Logger L) (fuel : nat) (req : http.Request) (s : State S L) :
  let r0 := RoundTrip doc now DefaultRetryer
              {| Transport.Delay := delay; Transport.Retry := retry;
                 Transport.Next := next; Transport.Logger := None |}
              fuel req s in
  let r1 := RoundTrip doc now DefaultRetryer
              {| Transport.Delay := delay; Transport.Retry := retry;
                 Transport.Next := next; Transport.Logger := Some logger |}
              fuel req s in
  result r0 = result r1
  /\ trace r0 = trace r1
  /\ length (transport_calls (trace r0)) = length (transport_calls (trace r1))
  /\ retryer_calls (trace r0) = retryer_calls (trace r1)
  /\ delayer_calls (trace r0) = delayer_calls (trace r1)
  /\ world (final r0) = world (final r1).
Proof.
  intros r0 r1.
  pose proof (run_unlog doc now DefaultRetryer
                {| Transport.Delay := delay; Transport.Retry := retry;
                   Transport.Next := next; Transport.Logger := None |}
                req s fuel) as H0.
  pose proof (run_unlog doc now DefaultRetryer
                {| Transport.Delay := delay; Transport.Retry := retry;
                   Transport.Next := next; Transport.Logger := Some logger |}
                req s fuel) as H1.
  fold r0 in H0. fold r1 in H1.
  assert (unlog r0 = unlog r1) as H by (rewrite H0, H1; done).
  clear H0 H1. unfold unlog, unlog_state in H.
  assert (result r0 = result r1) as Hr by congruence.
  assert (trace r0 = trace r1) as Ht by congruence.
  assert (world (final r0) = world (final r1)) as Hw by congruence.
  rewrite Ht. split_and!; done.
Qed.

(** ** The count wraps *)

Lemma uint_modulus_gt_1 : 1 < uint_modulus.
Proof. done. Qed.

Lemma wrapping_pass on_abort count :
  Core.pass (Some Examples.refused) Examples.until_zero None Examples.req 0 on_abort
    count Examples.nowhere
  = (Some (if count =? 0
           then Return None (Some "connection refused"%string)
           else Continue),
     Examples.nowhere,
     [RoundTripCall Examples.req None (Some "connection refused"%string);
      RetryerCall (refused_attempt count)
        (if count =? 0 then Ignore else Retry) None]).
Proof.
  unfold Core.pass, bind, Next_RoundTrip, call_Retryer, Examples.until_zero.
  simpl. destruct (count =? 0); reflexivity.
Qed.

Lemma for_loop_step {S L} (body : Z -> M S L Flow) fuel count s :
  for_loop body (Datatypes.S fuel) count s
  = match body count s with
    | (None, s1, e1) => {| result := Panicked; final := s1; trace := e1 |}
    | (Some (Return resp err), s1, e1) =>
        {| result := Returned resp err; final := s1; trace := e1 |}
    | (Some Continue, s1, e1) =>
        let r := for_loop body fuel (uint_incr count) s1 in
        {| result := result r; final := final r; trace := e1 ++ trace r |}
    end.
Proof. done. Qed.

Lemma wrapping_calls on_abort n : forall count,
  0 <= count < uint_modulus -> ((0 < n)%nat -> 0 < count) ->
  count + Z.of_nat n <= uint_modulus ->
  retryer_calls
    (trace (Core.loop (Some Examples.refused) Examples.until_zero None Examples.req 0
              on_abort (Datatypes.S n) count Examples.nowhere)) !! n
  = Some (refused_attempt (uint (count + Z.of_nat n)),
          if uint (count + Z.of_nat n) =? 0 then Ignore else Retry, None).
Proof.
  induction n as [|n IH]; intros count Hc Hpos Hle; unfold Core.loop.
  - rewrite for_loop_step, wrapping_pass.
    replace (uint (count + Z.of_nat 0)) with count
      by (unfold uint; rewrite Z.mod_small; lia).
    destruct (count =? 0); reflexivity.
  - rewrite for_loop_step, wrapping_pass.
    replace (count =? 0) with false by lia. cbn [trace app].
    change (retryer_calls (?x :: RetryerCall ?a ?d ?e :: ?l))
      with ((a, d, e) :: retryer_calls l).
    cbn [lookup list_lookup].
    fold (Core.loop (Some Examples.refused) Examples.until_zero None Examples.req 0
            on_abort (Datatypes.S n) (uint_incr count) Examples.nowhere).
    pose proof uint_modulus_gt_1.
    assert (0 <= uint_incr count < uint_modulus)
      by (apply Z.mod_pos_bound; lia).
    rewrite IH; [|done| |].
    + replace (uint (uint_incr count + Z.of_nat n))
        with (uint (count + Z.of_nat (Datatypes.S n))); [done|].
      unfold uint_incr, uint. rewrite Zplus_mod_idemp_l. f_equal. lia.
    + intros Hn. unfold uint_incr, uint. rewrite Z.mod_small; lia.
    + destruct n as [|n]; [lia|].
      unfold uint_incr, uint. rewrite Z.mod_small; lia.
Qed.

Lemma wrapping_call N :
  (1 <= N)%nat -> Z.of_nat N <= uint_modulus ->
  retryer_call First (fun _ => 0) Examples.until_zero Examples.wrapping
    Examples.req Examples.nowhere N
  = Some (refused_attempt (uint (Z.of_nat N)),
          if uint (Z.of_nat N) =? 0 then Ignore else Retry, None).
Proof.
  intros HN Hle. unfold retryer_call. rewrite run_trace.
  destruct N as [|n]; [lia|]. cbn [pred].
  pose proof uint_modulus_gt_1.
  pose proof (wrapping_calls abort_V1 n 1) as H1.
  replace (1 + Z.of_nat n) with (Z.of_nat (Datatypes.S n)) in H1 by lia.
  apply H1; lia.
Qed.

(** C2, as stated, at the attempt numbered [2 ^ 64]: the retryer answers
    [Retry] on all the attempts before it and [Ignore] on it, and the attempt
    it is handed then carries the count 0. *)
Lemma count_wraps_at_uint_modulus :
  (1 <= Z.to_nat uint_modulus)%nat
  /\ (forall k, (1 <= k < Z.to_nat uint_modulus)%nat ->
        decision_on First (fun _ => 0) Examples.until_zero Examples.wrapping
          Examples.req Examples.nowhere k = Some Retry)
  /\ decision_on First (fun _ => 0) Examples.until_zero Examples.wrapping
       Examples.req Examples.nowhere (Z.to_nat uint_modulus) = Some Ignore
  /\ exists a d e,
       retryer_call First (fun _ => 0) Examples.until_zero Examples.wrapping
         Examples.req Examples.nowhere (Z.to_nat uint_modulus) = Some (a, d, e)
       /\ Attempt.Count a = 0
       /\ Attempt.Count a <> Z.of_nat (Z.to_nat uint_modulus).
Proof.
  pose proof uint_modulus_gt_1 as Hm.
  assert (HN : Z.of_nat (Z.to_nat uint_modulus) = uint_modulus)
    by (apply Z2Nat.id; lia).
  revert HN. generalize (Z.to_nat uint_modulus). intros N HN.
  assert (Hcall : retryer_call First (fun _ => 0) Examples.until_zero
                    Examples.wrapping Examples.req Examples.nowhere N
                  = Some (refused_attempt 0, Ignore, None)).
  { rewrite wrapping_call by lia. rewrite HN. unfold uint.
    rewrite Z_mod_same_full. done. }
  split_and!.
  - lia.
  - intros k Hk. unfold decision_on. rewrite wrapping_call by lia.
    unfold uint. rewrite Z.mod_small by lia. simpl.
    replace (Z.of_nat k =? 0) with false by lia. done.
  - unfold decision_on. by rewrite Hcall.
  - exists (refused_attempt 0), Ignore, None. split_and!; [done|done|].
    simpl. lia.
Qed.


(** ** A retryer that never gives up *)

Lemma stubborn_pass on_abort count :
  Core.pass (Some Examples.refused) Examples.always_retry None Examples.req 0
    on_abort count Examples.nowhere
  = (Some Continue, Examples.nowhere,
     [RoundTripCall Examples.req None (Some "connection refused"%string);
      RetryerCall (refused_attempt count) Retry None]).
Proof. reflexivity. Qed.

Lemma stubborn_calls on_abort n : forall count,
  exists a,
    retryer_calls
      (trace (Core.loop (Some Examples.refused) Examples.always_retry None
                Examples.req 0 on_abort (Datatypes.S n) count Examples.nowhere)) !! n
    = Some (a, Retry, None).
Proof.
  induction n as [|n IH]; intros count; unfold Core.loop;
    rewrite for_loop_step, stubborn_pass.
  - by eexists.
  - destruct (IH (uint_incr count)) as [a Ha]. by exists a.
Qed.

Lemma stubborn_decision N :
  (1 <= N)%nat ->
  decision_on First (fun _ => 0) Examples.always_retry Examples.stubborn
    Examples.req Examples.nowhere N = Some Retry.
Proof.
  intros HN. destruct N as [|n]; [lia|].
  destruct (stubborn_calls abort_V1 n 1) as [a Ha].
  assert (retryer_call First (fun _ => 0) Examples.always_retry Examples.stubborn
            Examples.req Examples.nowhere (Datatypes.S n)
          = Some (a, Retry, None)) as Hc.
  { unfold retryer_call. rewrite run_trace. exact Ha. }
  unfold decision_on. by rewrite Hc.
Qed.

Lemma returns_iff_terminal_decision_witness :
  (forall N, (1 <= N)%nat ->
     decision_on First (fun _ => 0) Examples.always_retry Examples.stubborn
       Examples.req Examples.nowhere N = Some Retry)
  /\ (forall fuel,
        result (RoundTrip First (fun _ => 0) Examples.always_retry Examples.stubborn
                  fuel Examples.req Examples.nowhere) = OutOfFuel
        /\ length (transport_calls
                     (trace (RoundTrip First (fun _ => 0) Examples.always_retry
                               Examples.stubborn fuel Examples.req
                               Examples.nowhere))) = fuel)
  /\ decision_on Second Examples.clock (Examples.upto 1 (Ignore, None))
       Examples.giving_up Examples.req Examples.start 3 = Some Abort
  /\ exists fuel resp err,
       result (RoundTrip Second Examples.clock (Examples.upto 1 (Ignore, None))
                 Examples.giving_up fuel Examples.req Examples.start)
       = Returned resp err.
Proof.
  split_and!.
  - exact stubborn_decision.
  - exact (proj2 (returns_iff_terminal_decision First (fun _ => 0)
                    Examples.always_retry Examples.stubborn Examples.req
                    Examples.nowhere) stubborn_decision).
  - reflexivity.
  - apply (proj1 (returns_iff_terminal_decision Second Examples.clock
                    (Examples.upto 1 (Ignore, None)) Examples.giving_up
                    Examples.req Examples.start)).
    exists 3%nat. right. reflexivity.
Defined.

(** ** The scenarios of the specification *)

(** The transport always fails, the retryer answers [Retry] twice and then
    [Abort] with "max attempts exceeded": three calls of the transport, and
    [nil] with that error.  The first document returns the same here, the
    transport having returned no response. *)
Example scenario_giving_up (doc : Document) :
  let r := RoundTrip doc Examples.clock (Examples.upto 1 (Ignore, None))
             Examples.giving_up 10 Examples.req Examples.start in
  result r = Returned None (Some "max attempts exceeded"%string)
  /\ length (transport_calls (trace r)) = 3%nat.
Proof. destruct doc; split; reflexivity. Qed.

(** The transport answers and the retryer answers [Ignore]: one call of the
    transport, its response and no error. *)
Example scenario_first_try (doc : Document) :
  let r := RoundTrip doc Examples.clock (Examples.upto 1 (Ignore, None))
             Examples.first_try 10 Examples.req Examples.start in
  result r = Returned (Some 1%nat) None
  /\ length (transport_calls (trace r)) = 1%nat.
Proof. destruct doc; split; reflexivity. Qed.

(** The retryer rejects the first response and accepts the second: two calls
    of the transport, the first body read up to the limit and closed, the
    second response returned with its body untouched. *)
Example scenario_second_try (doc : Document) :
  let r := RoundTrip doc Examples.clock (Examples.upto 1 (Ignore, None))
             Examples.second_try 10 Examples.req Examples.start in
  result r = Returned (Some 102%nat) None
  /\ length (transport_calls (trace r)) = 2%nat
  /\ (fun o => (closed (http.Body o), length (unread (http.Body o))))
       <$> heap (world (final r)) !! 1%nat = Some (true, 904%nat)
  /\ (fun o => (closed (http.Body o), length (unread (http.Body o))))
       <$> heap (world (final r)) !! 102%nat = Some (false, 5000%nat).
Proof. destruct doc; split_and!; vm_compute; reflexivity. Qed.

(** With [t.Retry] [nil] the default retryer decides. *)
Example scenario_default_retryer (doc : Document) :
  let t := {| Transport.Delay := None; Transport.Retry := None;
              Transport.Next := Some Examples.failing;
              Transport.Logger := Some Examples.recording |} in
  result (RoundTrip doc Examples.clock
            (Examples.upto 2 (Abort, Some "default gave up"%string)) t 10
            Examples.req Examples.start)
  = Returned None (Some "default gave up"%string).
Proof. destruct doc; reflexivity. Qed.

(** ** Further properties of [RoundTrip] *)

(** X1: in any run, finished or not, the retryer is called once after each
    call of the underlying transport, failed or not, with an attempt that
    carries the response and the error of that call; the transport and the
    attempts are always given the request [RoundTrip] was given. *)
Theorem policy_sees_transport_answer {S L} (doc : Document) (now : World S -> Time)
  (DefaultRetryer : Retryer S) (t : Transport.t S L) (req : http.Request)
  (s : State S L) (fuel : nat) :
  let tr := trace (RoundTrip doc now DefaultRetryer t fuel req s) in
  transport_calls tr
  = (fun c => (req, Attempt.Response c.1.1, Attempt.Err c.1.1)) <$> retryer_calls tr
  /\ forall i a d e, retryer_calls tr !! i = Some (a, d, e) -> Attempt.Request a = req.
Proof.
  intros tr. subst tr.
  pose proof (run_shape_holds doc now DefaultRetryer t req s fuel) as Hs.
  split; [by eapply shape_transport_calls|].
  intros i a d e Hi.
  by destruct (shape_attempt _ _ _ _ _ _ _ _ _ Hs _ _ _ _ Hi) as (_ & _ & ?).
Qed.



Lemma abort_returns_witness :
  let a3 := {| Attempt.Start := 1000; Attempt.Count := 3;
               Attempt.Err := Some "connection reset"%string;
               Attempt.Request := Examples.req; Attempt.Response := None |} in
  retryer_call Second Examples.clock (Examples.upto 1 (Ignore, None))
    Examples.giving_up Examples.req Examples.start 3
  = Some (a3, Abort, Some "max attempts exceeded"%string)
  /\ result (RoundTrip Second Examples.clock (Examples.upto 1 (Ignore, None))
               Examples.giving_up 4 Examples.req Examples.start)
     = Returned None (Some "max attempts exceeded"%string).
Proof.
  intros a3. split; [reflexivity|].
  apply (abort_returns Second Examples.clock (Examples.upto 1 (Ignore, None))
           Examples.giving_up Examples.req Examples.start 3 a3
           (Some "max attempts exceeded"%string));
    [reflexivity|lia].
Defined.

Lemma retryer_calls_app tr1 tr2 :
  retryer_calls (tr1 ++ tr2) = retryer_calls tr1 ++ retryer_calls tr2.
Proof. apply omap_app. Qed.



(** X5: a decision that is none of [Ignore], [Retry] and [Abort] is handled
    as [Retry]: the response is disposed of, the delayer is called if there
    is one, and the loop goes on with the next call of the transport. *)
Theorem unknown_decision_retries {S L} (doc : Document) (now : World S -> Time)
  (DefaultRetryer : Retryer S) (t : Transport.t S L) (req : http.Request)
  (s : State S L) (fuel : nat) (pre post : list Event) (a : Attempt.t)
  (d : Decision) (e : error) :
  trace (RoundTrip doc now DefaultRetryer t fuel req s)
  = pre ++ RetryerCall a d e :: post ->
  d <> Ignore -> d <> Retry -> d <> Abort ->
  exists dr rest,
    drained (Attempt.Response a) dr
    /\ post = dr ++ match Transport.Delay t with
                    | Some _ => [DelayCall a]
                    | None => []
                    end ++ rest
    /\ transport_next req rest.
Proof.
  intros Htr Hi _ Ha.
  pose proof (run_shape_holds doc now DefaultRetryer t req s fuel) as Hs.
  pose proof (shape_after_retryer _ _ _ _ _ _ _ _ _ Hs _ _ _ _ _ Htr) as H.
  replace (terminal d) with false in H
    by (unfold terminal, Ignore, Abort in *; lia).
  destruct H as (tl & rest & (dr & Hdr & ->) & -> & Hn).
  exists dr, rest. by rewrite <- app_assoc.
Qed.

Lemma unknown_decision_retries_witness :
  let a1 := {| Attempt.Start := 1000; Attempt.Count := 1; Attempt.Err := None;
               Attempt.Request := Examples.req; Attempt.Response := Some 1%nat |} in
  let a2 := {| Attempt.Start := 1000; Attempt.Count := 2; Attempt.Err := None;
               Attempt.Request := Examples.req; Attempt.Response := Some 102%nat |} in
  let post := [CopyCall 1%nat 4096 100 None; CloseCall 1%nat; DelayCall a1;
               RoundTripCall Examples.req (Some 102%nat) None;
               RetryerCall a2 Ignore None] in
  trace (RoundTrip Second Examples.clock (Examples.upto 1 (Ignore, None))
           Examples.undecided 3 Examples.req Examples.start)
  = [RoundTripCall Examples.req (Some 1%nat) None] ++ RetryerCall a1 7 None :: post
  /\ exists dr rest,
       drained (Some 1%nat) dr
       /\ post = dr ++ [DelayCall a1] ++ rest
       /\ transport_next Examples.req rest.
Proof.
  intros a1 a2 post. split; [reflexivity|].
  apply (unknown_decision_retries Second Examples.clock
           (Examples.upto 1 (Ignore, None)) Examples.undecided Examples.req
           Examples.start 3 [RoundTripCall Examples.req (Some 1%nat) None] post
           a1 7 None);
    [reflexivity|discriminate..].
Defined.

Lemma shape_disposals {S} (next : option (RoundTripper S)) delay req start on_abort
  fuel count tr res :
  run_shape next delay req start on_abort fuel count tr res ->
  close_calls tr = rejected_responses tr
  /\ copy_calls tr = (fun r => (r, bodyReadLimit)) <$> rejected_responses tr.
Proof.
  induction 1 as [| |fuel count a0 d0 e0 Ha Hd
                  |fuel count a0 d0 e0 tl tr res Ha Hd Htl Hr [IH1 IH2]].
  - done.
  - done.
  - unfold rejected_responses, retried_attempts. simpl. by rewrite Hd.
  - unfold rejected_responses, retried_attempts.
    rewrite (retryer_calls_continue delay req a0) by done.
    simpl. rewrite Hd. simpl.
    fold (retried_attempts tr) (rejected_responses tr).
    destruct Htl as (dr & Hdr & ->).
    unfold close_calls, copy_calls in *. simpl. rewrite !omap_app.
    rewrite IH1, IH2. unfold drained, paused in Hdr |- *.
    destruct (Attempt.Response a0) as [r|], delay;
      try destruct Hdr as (n & e & -> & _); subst; done.
Qed.

(** X6: over a run, the bodies the controller closes are the responses of
    the rejected attempts, once for each rejection and in the order of the
    attempts, and the bodies it reads are the same, each through a reader
    limited to 4096 bytes; a decision that ends the run adds no read and no
    [Close]. *)
Theorem rejected_bodies_closed_once {S L} (doc : Document) (now : World S -> Time)
  (DefaultRetryer : Retryer S) (t : Transport.t S L) (req : http.Request)
  (s : State S L) (fuel : nat) :
  let tr := trace (RoundTrip doc now DefaultRetryer t fuel req s) in
  close_calls tr = rejected_responses tr
  /\ copy_calls tr = (fun r => (r, 4096)) <$> rejected_responses tr.
Proof.
  intros tr. subst tr.
  exact (shape_disposals _ _ _ _ _ _ _ _ _
           (run_shape_holds doc now DefaultRetryer t req s fuel)).
Qed.

(** X7: when the first attempt is answered with a response whose body is
    open and the retryer says [Retry], the controller consumes the first
    4096 bytes of the body, or all of them if there are fewer, leaves the
    rest unread, closes the body, and only then runs the delayer, on the
    world in which the body is closed. *)
Theorem rejected_body_is_drained_before_delay {S L} (doc : Document)
  (now : World S -> Time) (DefaultRetryer : Retryer S) (t : Transport.t S L)
  (req : http.Request) (s : State S L) (rt : RoundTripper S) (r : http.Response)
  (err e : error) (w1 w2 : World S) (o : http.ResponseObj) :
  let a := {| Attempt.Start := now (world s); Attempt.Count := 1;
              Attempt.Err := err; Attempt.Request := req;
              Attempt.Response := Some r |} in
  let w3 := {| ext := ext w2;
               heap := <[r := {| http.StatusCode := http.StatusCode o;
                                 http.Body :=
                                   {| unread := drop (Z.to_nat 4096)
                                                  (unread (http.Body o));
                                      fault := fault (http.Body o);
                                      closed := true |} |}]> (heap w2) |} in
  Transport.Next t = Some rt ->
  rt req (world s) = ((Some r, err), w1) ->
  retryer_of DefaultRetryer t a w1 = ((Retry, e), w2) ->
  heap w2 !! r = Some o ->
  closed (http.Body o) = false ->
  let run := RoundTrip doc now DefaultRetryer t 1 req s in
  world (final run) = match Transport.Delay t with
                      | Some delay => delay a w3
                      | None => w3
                      end
  /\ trace run
     = [RoundTripCall req (Some r) err;
        RetryerCall a Retry e;
        CopyCall r 4096 (Z.min 4096 (Z.of_nat (length (unread (http.Body o)))))
          (if Z.of_nat (length (unread (http.Body o))) <? 4096
           then fault (http.Body o) else None);
        CloseCall r]
       ++ match Transport.Delay t with
          | Some _ => [DelayCall a]
          | None => []
          end.
Proof.
  intros a w3 Hnext Hrt Hret Ho Hc run. subst run.
  pose proof (run_unlog doc now DefaultRetryer t req s 1) as Hu.
  assert (Core.loop (Transport.Next t) (retryer_of DefaultRetryer t)
            (Transport.Delay t) req (now (world s)) (abort_of doc) 1 1
            (unlog_state s)
          = {| result := OutOfFuel;
               final := {| world := match Transport.Delay t with
                                    | Some delay => delay a w3
                                    | None => w3
                                    end;
                           sink := tt |};
               trace := [RoundTripCall req (Some r) err;
                         RetryerCall a Retry e;
                         CopyCall r 4096
                           (Z.min 4096 (Z.of_nat (length (unread (http.Body o)))))
                           (if Z.of_nat (length (unread (http.Body o))) <? 4096
                            then fault (http.Body o) else None);
                         CloseCall r]
                        ++ match Transport.Delay t with
                           | Some _ => [DelayCall a]
                           | None => []
                           end |}) as Hcore.
  { unfold Core.loop. rewrite for_loop_step.
    unfold Core.pass, bind at 1, Next_RoundTrip. rewrite Hnext. simpl.
    rewrite Hrt. unfold bind at 1, call_Retryer. simpl. fold a.
    rewrite Hret. simpl. unfold bind at 1.
    destruct (drain_disposes r {| world := w2; sink := tt |} o Ho Hc)
      as (s' & Hd & Hext & Hheap).
    unfold Core.drain in Hd. rewrite Hd.
    destruct s' as [[x h] []]. simpl in Hext, Hheap. subst x h.
    unfold bind, Core.pause, call_Delayer, ret.
    destruct (Transport.Delay t); reflexivity. }
  rewrite Hcore in Hu. unfold unlog, unlog_state in Hu.
  injection Hu as _ Hw Ht. done.
Qed.

Lemma rejected_body_is_drained_before_delay_witness :
  let a := {| Attempt.Start := 1000; Attempt.Count := 1; Attempt.Err := None;
              Attempt.Request := Examples.req; Attempt.Response := Some 1%nat |} in
  let o := {| http.StatusCode := 503;
              http.Body := {| unread := replicate 5000 Byte.x00; fault := None;
                              closed := false |} |} in
  let w1 := {| ext := 1%nat; heap := <[1%nat := o]> ∅ |} in
  let w3 := {| ext := 1%nat;
               heap := <[1%nat := {| http.StatusCode := 503;
                                     http.Body :=
                                       {| unread := drop (Z.to_nat 4096)
                                                      (replicate 5000 Byte.x00);
                                          fault := None;
                                          closed := true |} |}]> (heap w1) |} in
  let run := RoundTrip Second Examples.clock (Examples.upto 1 (Ignore, None))
               Examples.second_try 1 Examples.req Examples.start in
  world (final run) = Examples.waiting a w3
  /\ trace run = [RoundTripCall Examples.req (Some 1%nat) None;
                  RetryerCall a Retry None;
                  CopyCall 1%nat 4096 (Z.min 4096 (Z.of_nat 5000)) None;
                  CloseCall 1%nat]
                 ++ [DelayCall a].
Proof.
  intros a o w1 w3 run.
  apply (rejected_body_is_drained_before_delay Second Examples.clock
           (Examples.upto 1 (Ignore, None)) Examples.second_try Examples.req
           Examples.start (Examples.serving 503 5000) 1%nat None None w1 w1 o);
    reflexivity.
Defined.

(** ** What is logged *)

Lemma bind_inv {S L A B} (m : M S L A) (f : A -> M S L B) s b s2 evs :
  bind m f s = (Some b, s2, evs) ->
  exists a s1 e1 e2,
    m s = (Some a, s1, e1) /\ f a s1 = (Some b, s2, e2) /\ evs = e1 ++ e2.
Proof.
  unfold bind. destruct (m s) as [[[a|] s1] e1]; [|done].
  destruct (f a s1) as [[b' s2'] e2] eqn:Hf. intros H. simplify_eq.
  by exists a, s1, e1, e2.
Qed.

(** A call of the logger, or none, adds nothing to the trace. *)
Lemma when_logf_events {S L} (t : Transport.t S L) c format v s x s1 evs :
  when c (V1.logf t format v) s = (x, s1, evs) -> evs = [].
Proof.
  unfold when, V1.logf, Printf, ret.
  destruct c, (Transport.Logger t); intros H; by simplify_eq.
Qed.

Lemma for_loop_returned {S L} (body : Z -> M S L Flow) fuel : forall count s resp err,
  result (for_loop body fuel count s) = Returned resp err ->
  exists count' s' evs pre,
    body count' s' = (Some (Return resp err), final (for_loop body fuel count s), evs)
    /\ trace (for_loop body fuel count s) = pre ++ evs.
Proof.
  induction fuel as [|fuel IH]; intros count s resp err Hres; [done|].
  rewrite for_loop_step in Hres |- *.
  destruct (body count s) as [[[[|resp' err']|] s1] e1] eqn:Hb;
    simpl in *; try done.
  - destruct (IH _ _ _ _ Hres) as (c' & s' & evs & pre & Hb' & Htr).
    exists c', s', evs, (e1 ++ pre). split; [done|].
    by rewrite Htr, app_assoc.
  - simplify_eq. by exists count, s, e1, [].
Qed.

Lemma V1_abort_sink {S L} (t : Transport.t S L) lg req f start count s resp err s1
  evs a e :
  Transport.Logger t = Some lg ->
  V1.iteration t req (Some f) start count s = (Some (Return resp err), s1, evs) ->
  retryer_calls evs = [(a, Abort, e)] ->
  exists l,
    sink s1 = lg "[ERROR] aborting request %s %v, error: %s"
                [ArgString (http.Method req); ArgString (http.URL req); ArgError e] l.
Proof.
  intros Hl H Hc. unfold V1.iteration in H.
  apply bind_inv in H as ([] & sA & eA & e1' & HA & H & ->).
  apply when_logf_events in HA as ->.
  apply bind_inv in H as ([resp0 err0] & sB & eB & e2' & HB & H & ->).
  cbv zeta in H.
  apply bind_inv in H as ([] & sC & eC & e3' & HC & H & ->).
  apply when_logf_events in HC as ->.
  apply bind_inv in H as ([d e0] & sD & eD & e4' & HD & H & ->).
  apply bind_inv in H as ([] & sE & eE & e5' & HE & H & ->).
  apply when_logf_events in HE as ->.
  unfold Next_RoundTrip in HB. destruct (Transport.Next t) as [rt|]; [|done].
  destruct (rt req (world sA)) as [[? ?] ?]. simplify_eq.
  unfold call_Retryer in HD. destruct (f _ _) as [[? ?] ?]. simplify_eq.
  destruct (d =? Ignore) eqn:Hi.
  - unfold ret in H. simplify_eq. simpl in Hc. by simplify_eq.
  - destruct (d =? Abort) eqn:Ha.
    + apply bind_inv in H as ([] & sF & eF & e6' & HF & H & ->).
      unfold ret in H. simplify_eq.
      unfold V1.logf in HF. rewrite Hl in HF. unfold Printf in HF. simplify_eq.
      simpl in Hc. simplify_eq. by eexists.
    + apply bind_inv in H as (? & ? & ? & ? & _ & H & _).
      apply bind_inv in H as (? & ? & ? & ? & _ & H & _).
      by unfold ret in H.
Qed.

Lemma when_Printf_events {S L} (lg : Logger L) c format v (s : State S L) x s1 evs :
  when c (Printf lg format v) s = (x, s1, evs) -> evs = [].
Proof.
  unfold when, Printf, ret. destruct c; intros H; by simplify_eq.
Qed.

Lemma V2_abort_sink {S L} (t : Transport.t S L) lg req f start count s resp err s1
  evs a e :
  Transport.Logger t = Some lg ->
  V2.iteration t req (Some f) start count s = (Some (Return resp err), s1, evs) ->
  retryer_calls evs = [(a, Abort, e)] ->
  exists l,
    sink s1 = lg "[ERROR] aborting request %s %s, error: %s"
                [ArgString (http.Method req); ArgString (http.URL req); ArgError e] l.
Proof.
  intros Hl H Hc. unfold V2.iteration in H. rewrite Hl in H.
  apply bind_inv in H as ([] & sA & eA & e1' & HA & H & ->).
  apply when_Printf_events in HA as ->.
  apply bind_inv in H as ([resp0 err0] & sB & eB & e2' & HB & H & ->).
  cbv zeta in H.
  apply bind_inv in H as ([] & sC & eC & e3' & HC & H & ->).
  apply when_Printf_events in HC as ->.
  apply bind_inv in H as ([d e0] & sD & eD & e4' & HD & H & ->).
  apply bind_inv in H as ([] & sE & eE & e5' & HE & H & ->).
  apply when_Printf_events in HE as ->.
  unfold Next_RoundTrip in HB. destruct (Transport.Next t) as [rt|]; [|done].
  destruct (rt req (world sA)) as [[? ?] ?]. simplify_eq.
  unfold call_Retryer in HD. destruct (f _ _) as [[? ?] ?]. simplify_eq.
  destruct (d =? Ignore) eqn:Hi.
  - unfold ret in H. simplify_eq. simpl in Hc. by simplify_eq.
  - destruct (d =? Abort) eqn:Ha.
    + apply bind_inv in H as ([] & sF & eF & e6' & HF & H & ->).
      unfold ret in H. simplify_eq.
      unfold Printf in HF. simplify_eq.
      simpl in Hc. simplify_eq. by eexists.
    + apply bind_inv in H as (? & ? & ? & ? & _ & H & _).
      apply bind_inv in H as (? & ? & ? & ? & _ & H & _).
      by unfold ret in H.
Qed.

(** The calls of a pass that returns. *)
Lemma returning_pass_calls {S} (next : option (RoundTripper S)) retryer delay req
  start on_abort count s resp err s1 evs :
  Core.pass next retryer delay req start on_abort count s
  = (Some (Return resp err), s1, evs) ->
  exists a d e, retryer_calls evs = [(a, d, e)].
Proof.
  intros H.
  pose proof (pass_shape next retryer delay req start on_abort count s) as Hp.
  rewrite H in Hp. destruct Hp as (a & d & e & _ & _ & _ & ->).
  by exists a, d, e.
Qed.

(** X10: with a logger, an abort is reported: when the retryer answers
    [Abort] with the error [e], the last line [RoundTrip] hands to the logger
    before it returns is the "[ERROR] aborting request" line of the document,
    with the method and the URL of the request and the error [e]. *)
Theorem abort_is_logged {S L} (doc : Document) (now : World S -> Time)
  (DefaultRetryer : Retryer S) (t : Transport.t S L) (lg : Logger L)
  (req : http.Request) (s : State S L) (N : nat) (a : Attempt.t) (e : error) :
  Transport.Logger t = Some lg ->
  retryer_call doc now DefaultRetryer t req s N = Some (a, Abort, e) ->
  forall fuel, (N <= fuel)%nat ->
    exists l,
      sink (final (RoundTrip doc now DefaultRetryer t fuel req s))
      = lg (abort_format doc)
          [ArgString (http.Method req); ArgString (http.URL req); ArgError e] l.
Proof.
  intros Hl Hc fuel Hfuel.
  pose proof (call_positive _ _ _ _ _ _ _ _ Hc) as HN.
  destruct (call_terminal _ _ _ _ _ _ _ _ _ _ Hc eq_refl) as (Hres & Hlen & Hmore).
  rewrite (Hmore fuel Hfuel). unfold retryer_call in Hc.
  unfold outcome in Hres. simpl in Hres.
  set (f := retryer_of DefaultRetryer t).
  assert (forall body : Z -> M S L Flow,
            (forall c s', unlog_out (body c s')
                          = Core.pass (Transport.Next t) f (Transport.Delay t) req
                              (now (world s)) (abort_of doc) c (unlog_state s')) ->
            RoundTrip doc now DefaultRetryer t N req s = for_loop body N 1 s ->
            exists c s' evs,
              body c s' = (Some (Return (abort_of doc (Attempt.Response a)) e),
                           final (RoundTrip doc now DefaultRetryer t N req s), evs)
              /\ retryer_calls evs = [(a, Abort, e)]) as Hlast.
  { intros body Hsim Hrun. rewrite Hrun in Hres, Hc, Hlen |- *.
    destruct (for_loop_returned body N 1 s _ _ Hres)
      as (c & s' & evs & pre & Hb & Htr).
    exists c, s', evs. split; [done|].
    specialize (Hsim c s'). rewrite Hb in Hsim. unfold unlog_out in Hsim.
    simpl in Hsim. symmetry in Hsim.
    apply returning_pass_calls in Hsim as (a' & d' & e' & Hev).
    rewrite Hev. rewrite Htr, retryer_calls_app, Hev in Hc, Hlen.
    rewrite length_app in Hlen. simpl in Hlen.
    rewrite lookup_app_r in Hc by lia.
    replace (pred N - length (retryer_calls pre))%nat with 0%nat in Hc by lia.
    simpl in Hc. by simplify_eq. }
  destruct doc.
  - destruct (Hlast (V1.iteration t req (Some f) (now (world s))))
      as (c & s' & evs & Hb & Hev).
    + intros c s'. apply V1_iteration_sim.
    + unfold RoundTrip, V1.RoundTrip, f, retryer_of.
      by destruct (Transport.Retry t).
    + by eapply V1_abort_sink.
  - destruct (Hlast (V2.iteration t req (Some f) (now (world s))))
      as (c & s' & evs & Hb & Hev).
    + intros c s'. apply V2_iteration_sim.
    + unfold RoundTrip, V2.RoundTrip, f, retryer_of.
      by destruct (Transport.Retry t).
    + by eapply V2_abort_sink.
Qed.

Lemma abort_is_logged_witness :
  let a3 := {| Attempt.Start := 1000; Attempt.Count := 3;
               Attempt.Err := Some "connection reset"%string;
               Attempt.Request := Examples.req; Attempt.Response := None |} in
  Transport.Logger Examples.giving_up = Some Examples.recording
  /\ retryer_call First Examples.clock (Examples.upto 1 (Ignore, None))
       Examples.giving_up Examples.req Examples.start 3
     = Some (a3, Abort, Some "max attempts exceeded"%string)
  /\ exists l,
       sink (final (RoundTrip First Examples.clock (Examples.upto 1 (Ignore, None))
                      Examples.giving_up 6 Examples.req Examples.start))
       = Examples.recording (abort_format First)
           [ArgString "GET"; ArgString "http://example.org/";
            ArgError (Some "max attempts exceeded"%string)] l.
Proof.
  intros a3. split_and!; [reflexivity|reflexivity|].
  apply (abort_is_logged First Examples.clock (Examples.upto 1 (Ignore, None))
           Examples.giving_up Examples.recording Examples.req Examples.start 3 a3
           (Some "max attempts exceeded"%string));
    [reflexivity|reflexivity|lia].
Defined.

(** ** The transport and the retryer the loop calls *)

(** X8: with [t.Next] [nil], [RoundTrip] panics on the first attempt, at the
    call of the transport and before any call to a collaborator: nothing is
    in the trace and the world is as it was. *)
Theorem nil_transport_panics {S L} (doc : Document) (now : World S -> Time)
  (DefaultRetryer : Retryer S) (t : Transport.t S L) (req : http.Request)
  (s : State S L) (fuel : nat) :
  Transport.Next t = None ->
  (1 <= fuel)%nat ->
  let r := RoundTrip doc now DefaultRetryer t fuel req s in
  result r = Panicked /\ trace r = [] /\ world (final r) = world s.
Proof.
  intros Hnone Hfuel r. subst r.
  pose proof (run_unlog doc now DefaultRetryer t req s fuel) as Hu.
  destruct fuel as [|fuel]; [lia|].
  unfold Core.loop in Hu. rewrite for_loop_step in Hu.
  unfold Core.pass, bind, Next_RoundTrip in Hu. rewrite Hnone in Hu.
  unfold unlog, unlog_state in Hu. by injection Hu.
Qed.

Lemma nil_transport_panics_witness :
  Transport.Next Examples.unplugged = None
  /\ (1 <= 3)%nat
  /\ (let r := RoundTrip First Examples.clock (Examples.upto 1 (Ignore, None))
                 Examples.unplugged 3 Examples.req Examples.start in
      result r = Panicked /\ trace r = [] /\ world (final r) = world Examples.start).
Proof.
  split_and!; [reflexivity|lia|].
  apply (nil_transport_panics First Examples.clock
           (Examples.upto 1 (Ignore, None)) Examples.unplugged Examples.req
           Examples.start 3);
    [reflexivity|lia].
Defined.

(** The call of the retryer in a pass: none on a [nil] transport, otherwise
    the answer of [retryer] to the attempt made of what the transport
    returned, in the world the transport left. *)
Lemma pass_calls {S} (next : option (RoundTripper S)) retryer delay req start
  on_abort count (s : State S unit) :
  match next with
  | None =>
      retryer_calls (Core.pass next retryer delay req start on_abort count s).2 = []
  | Some rt =>
      let a := {| Attempt.Start := start; Attempt.Count := count;
                  Attempt.Err := (rt req (world s)).1.2; Attempt.Request := req;
                  Attempt.Response := (rt req (world s)).1.1 |} in
      retryer_calls (Core.pass next retryer delay req start on_abort count s).2
      = [(a, (retryer a (rt req (world s)).2).1.1, (retryer a (rt req (world s)).2).1.2)]
  end.
Proof.
  destruct next as [rt|]; [|done]. intros a. subst a.
  unfold Core.pass, bind at 1, Next_RoundTrip.
  destruct (rt req (world s)) as [[resp err] w1]. simpl.
  unfold bind at 1, call_Retryer. simpl.
  destruct (retryer _ w1) as [[d e] w2]. simpl.
  destruct (d =? Ignore); [done|].
  destruct (d =? Abort); [done|].
  unfold bind.
  destruct (drain_shape resp {| world := w2; sink := sink s |}) as (s1 & dr & -> & Hdr).
  match goal with
  | |- context [Core.pause delay ?a s1] =>
      destruct (pause_shape delay a s1) as (s2 & ->);
      assert (rejected delay a (dr ++ paused delay a)) as Hrej by (by exists dr);
      apply rejected_retryer_calls in Hrej
  end.
  simpl. rewrite app_nil_r. unfold retryer_calls in *. simpl. by rewrite Hrej.
Qed.

Lemma loop_answers {S} (next : option (RoundTripper S)) retryer delay req start
  on_abort fuel : forall count s,
  Forall (answered_by retryer)
    (retryer_calls (trace (Core.loop next retryer delay req start on_abort fuel
                             count s))).
Proof.
  induction fuel as [|fuel IH]; intros count s; [constructor|].
  unfold Core.loop. rewrite for_loop_step.
  pose proof (pass_calls next retryer delay req start on_abort count s) as Hp.
  assert (Forall (answered_by retryer)
            (retryer_calls (Core.pass next retryer delay req start on_abort
                              count s).2)) as Hf.
  { destruct next as [rt|]; [|rewrite Hp; constructor].
    cbv zeta in Hp. rewrite Hp. constructor; [|constructor].
    unfold answered_by. simpl.
    match goal with
    | |- exists w w', retryer ?a w = ((retryer ?a ?w1).1.1, _, w') =>
        exists w1, (retryer a w1).2
    end.
    by destruct (retryer _ _) as [[d e] w']. }
  destruct (Core.pass next retryer delay req start on_abort count s)
    as [[[[|resp err]|] s1] evs]; simpl in *; try done.
  rewrite retryer_calls_app. apply Forall_app. split; [done|apply IH].
Qed.

Lemma loop_first_call {S} (next : option (RoundTripper S)) retryer delay req start
  on_abort fuel count s rt resp err w1 d e w2 :
  next = Some rt ->
  rt req (world s) = ((resp, err), w1) ->
  retryer {| Attempt.Start := start; Attempt.Count := count; Attempt.Err := err;
             Attempt.Request := req; Attempt.Response := resp |} w1
  = ((d, e), w2) ->
  retryer_calls (trace (Core.loop next retryer delay req start on_abort
                          (Datatypes.S fuel) count s)) !! 0%nat
  = Some ({| Attempt.Start := start; Attempt.Count := count; Attempt.Err := err;
             Attempt.Request := req; Attempt.Response := resp |}, d, e).
Proof.
  intros -> Hrt Hret.
  pose proof (pass_calls (Some rt) retryer delay req start on_abort count s) as Hp.
  simpl in Hp. rewrite Hrt in Hp. simpl in Hp. rewrite Hret in Hp. simpl in Hp.
  unfold Core.loop. rewrite for_loop_step.
  destruct (Core.pass (Some rt) retryer delay req start on_abort count s)
    as [[[[|resp' err']|] s1] evs]; simpl in *; try by rewrite Hp.
  rewrite retryer_calls_app, Hp. done.
Qed.

(** C8: with [t.Retry] [nil] the policy the loop consults is
    [DefaultRetryer]: on the first attempt it is called with the attempt made
    of what the transport returned, in the world the transport left, and its
    answer is the decision the loop acts on; every later call of the policy
    is a call of [DefaultRetryer] too, and the loop never panics on a [nil]
    policy. *)
Theorem nil_retryer_consults_default {S L} (doc : Document) (now : World S -> Time)
  (DefaultRetryer : Retryer S) (t : Transport.t S L) (req : http.Request)
  (s : State S L) (rt : RoundTripper S) (resp : option http.Response)
  (err e : error) (d : Decision) (w1 w2 : World S) (fuel : nat) :
  let a := {| Attempt.Start := now (world s); Attempt.Count := 1;
              Attempt.Err := err; Attempt.Request := req;
              Attempt.Response := resp |} in
  Transport.Retry t = None ->
  Transport.Next t = Some rt ->
  rt req (world s) = ((resp, err), w1) ->
  DefaultRetryer a w1 = ((d, e), w2) ->
  (1 <= fuel)%nat ->
  let r := RoundTrip doc now DefaultRetryer t fuel req s in
  retryer_calls (trace r) !! 0%nat = Some (a, d, e)
  /\ Forall (answered_by DefaultRetryer) (retryer_calls (trace r))
  /\ result r <> Panicked
  /\ (d = Ignore -> result r = Returned resp err)
  /\ (d = Abort -> exists resp', result r = Returned resp' e).
Proof.
  intros a Hretry Hnext Hrt Hret Hfuel r. subst r.
  assert (retryer_of DefaultRetryer t = DefaultRetryer) as Hof
    by (unfold retryer_of; by rewrite Hretry).
  assert (forall n, retryer_calls
                      (trace (RoundTrip doc now DefaultRetryer t (Datatypes.S n) req s))
                    !! 0%nat = Some (a, d, e)) as Hfirst.
  { intros n. rewrite run_trace, Hof.
    by apply (loop_first_call _ _ _ _ _ _ _ _ _ rt resp err w1 d e w2). }
  assert (retryer_call doc now DefaultRetryer t req s 1 = Some (a, d, e)) as Hc
    by apply (Hfirst 0%nat).
  split_and!.
  - destruct fuel as [|fuel]; [lia|]. apply Hfirst.
  - rewrite run_trace, Hof. apply loop_answers.
  - intros Hres.
    pose proof (run_shape_holds doc now DefaultRetryer t req s fuel) as Hs.
    apply (shape_panicked _ _ _ _ _ _ _ _ _ Hs) in Hres. congruence.
  - intros ->.
    destruct (call_terminal _ _ _ _ _ _ _ _ _ _ Hc eq_refl) as (Hres & _ & Hmore).
    by rewrite (Hmore fuel Hfuel), Hres.
  - intros ->.
    destruct (call_terminal _ _ _ _ _ _ _ _ _ _ Hc eq_refl) as (Hres & _ & Hmore).
    rewrite (Hmore fuel Hfuel), Hres. by eexists.
Qed.

Lemma nil_retryer_consults_default_witness :
  let a := {| Attempt.Start := 1000; Attempt.Count := 1;
              Attempt.Err := Some "connection reset"%string;
              Attempt.Request := Examples.req; Attempt.Response := None |} in
  let w1 := {| ext := 1%nat; heap := ∅ |} in
  let D := Examples.upto 1 (Abort, Some "default gave up"%string) in
  let r := RoundTrip First Examples.clock D Examples.defaulted 4 Examples.req
             Examples.start in
  Transport.Retry Examples.defaulted = None
  /\ Transport.Next Examples.defaulted = Some Examples.failing
  /\ Examples.failing Examples.req (world Examples.start)
     = ((None, Some "connection reset"%string), w1)
  /\ D a w1 = ((Abort, Some "default gave up"%string), w1)
  /\ (1 <= 4)%nat
  /\ retryer_calls (trace r) !! 0%nat = Some (a, Abort, Some "default gave up"%string)
  /\ Forall (answered_by D) (retryer_calls (trace r))
  /\ result r <> Panicked
  /\ (Abort = Ignore -> result r = Returned None (Some "connection reset"%string))
  /\ (Abort = Abort ->
      exists resp', result r = Returned resp' (Some "default gave up"%string)).
Proof.
  intros a w1 D r.
  split; [reflexivity|]. split; [reflexivity|]. split; [reflexivity|].
  split; [reflexivity|]. split; [lia|].
  apply (nil_retryer_consults_default First Examples.clock D Examples.defaulted
           Examples.req Examples.start Examples.failing None
           (Some "connection reset"%string) (Some "default gave up"%string)
           Abort w1 w1 4);
    [reflexivity|reflexivity|reflexivity|reflexivity|lia].
Defined.

(** X9: the two documents make the same calls to the transport, the retryer,
    the bodies and the delayer, in the same order, and leave the same world.
    They return the same, except when the last decision is [Abort] on an
    attempt that has a response: then, and only then, the first returns that
    response and the second [nil], both with the error of the retryer.  (What
    they hand to the logger differs in the format of the lines.) *)
Theorem documents_agree_but_on_abort {S L} (now : World S -> Time)
  (DefaultRetryer : Retryer S) (t : Transport.t S L) (fuel : nat)
  (req : http.Request) (s : State S L) :
  let r1 := RoundTrip First now DefaultRetryer t fuel req s in
  let r2 := RoundTrip Second now DefaultRetryer t fuel req s in
  trace r1 = trace r2
  /\ world (final r1) = world (final r2)
  /\ (result r1 = result r2
      \/ exists a r e,
           last (retryer_calls (trace r1)) = Some (a, Abort, e)
           /\ Attempt.Response a = Some r
           /\ result r1 = Returned (Some r) e
           /\ result r2 = Returned None e)
  /\ (forall a r e,
        last (retryer_calls (trace r1)) = Some (a, Abort, e) ->
        Attempt.Response a = Some r ->
        result r1 = Returned (Some r) e /\ result r2 = Returned None e).
Proof.
  intros r1 r2.
  destruct (documents_agree now DefaultRetryer t fuel req s) as (Ht & Hw & Hr).
  fold r1 r2 in Ht, Hw, Hr.
  pose proof (run_shape_holds First now DefaultRetryer t req s fuel) as Hs1.
  pose proof (run_shape_holds Second now DefaultRetryer t req s fuel) as Hs2.
  fold r1 in Hs1. fold r2 in Hs2. rewrite <- Ht in Hs2.
  split_and!; [done|done| |].
  - destruct Hr as [Hr | (r & e & Hr1 & Hr2)]; [by left|right].
    destruct (shape_returned _ _ _ _ _ _ _ _ _ _ _ Hs1 Hr1)
      as (a & d & e0 & Hl & Hd & Ho1).
    destruct (shape_returned _ _ _ _ _ _ _ _ _ _ _ Hs2 Hr2)
      as (a' & d' & e0' & Hl' & _ & Ho2).
    rewrite Hl in Hl'. injection Hl' as <- <- <-.
    rewrite Hr1 in Ho1. rewrite Hr2 in Ho2.
    unfold outcome, abort_of, abort_V1, abort_V2 in Ho1, Ho2.
    destruct (d =? Ignore) eqn:Hi; [congruence|].
    apply terminal_cases in Hd as [-> | ->]; [done|].
    exists a, r, e. simplify_eq. done.
  - intros a r e Hl Hresp. rewrite last_lookup in Hl.
    destruct (shape_terminal _ _ _ _ _ _ _ _ _ Hs1 _ _ _ _ Hl eq_refl) as [-> _].
    destruct (shape_terminal _ _ _ _ _ _ _ _ _ Hs2 _ _ _ _ Hl eq_refl) as [-> _].
    unfold outcome, abort_of, abort_V1, abort_V2. simpl. by rewrite Hresp.
Qed.
